(** * CMML Market Scan: a shallow embedding of the workflow and the PDF
    section extractor, with the properties checked against the code.

  Sources embedded here:
    - [src/pdf_utils.py]            (class [PdfUtils])
    - [src/market_scan_workflow.py] ([merge_dicts], class [MarketScanWorkflow])
    - [src/prompt_manager.py]       ([PromptManager.is_node_enabled],
                                    [PromptManager.set_node_enabled])
    - [src/config.py]               ([Config.validate_pdf_config])

  Conventions of the embedding.
    - Python [str] is [string]; character classes ([str.strip], [\s], [\d],
      [str.upper]) are the ASCII ones, so the model speaks about text in
      the ASCII range.
    - Python [int] is [Z].
    - A [dict] with string keys is a [gmap string _]; [==] on dicts ignores
      insertion order, as equality on [gmap] does.
    - A call that may raise returns [res A]; [try ... except Exception] is
      [try_except].  Only subclasses of [Exception] are modelled.
    - Calls to the logger are not modelled, but an exception raised while
      their arguments are evaluated is; and the outline parser returns what
      it logs, the only trace a cut recursion leaves.
    - Collaborators (search and document-analysis services, prompt
      templates, the file system, the clock) are fields of a record of
      oracles, quantified over in the theorems. *)

From Stdlib Require Import ZArith Ascii String List Bool Lia.
From stdpp Require Import gmap strings list fin_maps pretty sorting.

(* ===================================================================== *)
(** * Python primitives *)
(* ===================================================================== *)

Module Py.

(** ** Exceptions *)

Inductive exn_class : Type :=
| KeyError | TypeError | AttributeError | ValueError | RecursionError
| OSError | OtherException.

(** An exception instance: its class and the message it was built with. *)
Record exn : Type := Exn { exn_cls : exn_class; exn_arg : string }.

Inductive res (A : Type) : Type :=
| Ret (a : A)
| Raise (e : exn).
Arguments Ret {A} a.
Arguments Raise {A} e.

Definition bind {A B} (c : res A) (k : A → res B) : res B :=
  match c with
  | Ret a => k a
  | Raise e => Raise e
  end.

(** [try: body  except Exception as e: handler e] *)
Definition try_except {A} (body : res A) (handler : exn → res A) : res A :=
  match body with
  | Ret a => Ret a
  | Raise e => handler e
  end.

(** The same, for a handler that returns a value itself. *)
Definition catch {A} (body : res A) (handler : exn → A) : A :=
  match body with
  | Ret a => a
  | Raise e => handler e
  end.

Definition raises {A} (c : res A) : Prop := ∃ e, c = Raise e.
Definition returns {A} (c : res A) : Prop := ∃ a, c = Ret a.

(** ** Characters and strings *)

Definition dq : string := String (ascii_of_nat 34) EmptyString.
Definition nl : string := String (ascii_of_nat 10) EmptyString.

Definition code (c : ascii) : nat := nat_of_ascii c.

(** [c.isspace()] and the regex class [\s], for ASCII: TAB, LF, VT, FF,
    CR, the four separators FS..US, and SPACE. *)
Definition is_space (c : ascii) : bool :=
  let n := code c in
  ((9 <=? n) && (n <=? 13)) || ((28 <=? n) && (n <=? 32)).

(** The regex class [\d], for ASCII. *)
Definition is_digit (c : ascii) : bool :=
  let n := code c in (48 <=? n) && (n <=? 57).

(** The regex range [A-Z]. *)
Definition is_upper (c : ascii) : bool :=
  let n := code c in (65 <=? n) && (n <=? 90).

Definition is_lower (c : ascii) : bool :=
  let n := code c in (97 <=? n) && (n <=? 122).

Definition is_empty (s : string) : bool :=
  match s with EmptyString => true | String _ _ => false end.

Fixpoint lstrip (s : string) : string :=
  match s with
  | EmptyString => EmptyString
  | String c s' => if is_space c then lstrip s' else s
  end.

Fixpoint rstrip (s : string) : string :=
  match s with
  | EmptyString => EmptyString
  | String c s' =>
      let r := rstrip s' in
      if is_space c && is_empty r then EmptyString else String c r
  end.

(** [s.strip()] *)
Definition strip (s : string) : string := rstrip (lstrip s).

Definition upper_char (c : ascii) : ascii :=
  if is_lower c then ascii_of_nat (code c - 32) else c.

(** [s.upper()] *)
Fixpoint upper (s : string) : string :=
  match s with
  | EmptyString => EmptyString
  | String c s' => String (upper_char c) (upper s')
  end.

(** [s.startswith(p)] *)
Fixpoint startswith (p s : string) : bool :=
  match p, s with
  | EmptyString, _ => true
  | String a p', String b s' => if decide (a = b) then startswith p' s' else false
  | String _ _, EmptyString => false
  end.

(** [needle in hay] *)
Fixpoint contains (needle hay : string) : bool :=
  startswith needle hay ||
  match hay with
  | EmptyString => false
  | String _ hay' => contains needle hay'
  end.

(** [s.replace(a, b)] for single characters [a] and [b]. *)
Fixpoint replace_char (a b : ascii) (s : string) : string :=
  match s with
  | EmptyString => EmptyString
  | String c s' => String (if decide (c = a) then b else c) (replace_char a b s')
  end.

(** [sep.join(parts)] *)
Fixpoint join (sep : string) (parts : list string) : string :=
  match parts with
  | [] => ""
  | [p] => p
  | p :: rest => p +:+ sep +:+ join sep rest
  end.

(** Truth value of an [Optional[str]]: [None] and [''] are false. *)
Definition truthy (o : option string) : bool :=
  match o with
  | Some s => negb (is_empty s)
  | None => false
  end.

(** [f"{x}"] for an [Optional[str]]. *)
Definition fmt (o : option string) : string :=
  match o with
  | Some s => s
  | None => "None"
  end.

(** [str(e)]: a [KeyError] prints the [repr] of its argument, the other
    classes print the argument.  [repr] is modelled for text whose only
    escapes are the quote, the backslash, LF, CR and TAB. *)
Fixpoint escape (q : ascii) (s : string) : string :=
  match s with
  | EmptyString => EmptyString
  | String c s' =>
      (if decide (c = q) then String "\" (String q EmptyString)
       else if decide (code c = 92) then "\\"
       else if decide (code c = 10) then "\n"
       else if decide (code c = 13) then "\r"
       else if decide (code c = 9) then "\t"
       else String c EmptyString) +:+ escape q s'
  end.

Definition repr (s : string) : string :=
  if contains "'" s && negb (contains dq s)
  then dq +:+ escape (ascii_of_nat 34) s +:+ dq
  else "'" +:+ escape "'" s +:+ "'".

Definition str (e : exn) : string :=
  match exn_cls e with
  | KeyError => repr (exn_arg e)
  | _ => exn_arg e
  end.

(** ** Regular expressions, by derivatives

    Enough of [re] for the pattern of [filter_main_sections]: character
    classes, concatenation, and [+]. *)

Inductive regex : Type :=
| Void
| Eps
| Class (p : ascii → bool)
| Seq (r1 r2 : regex)
| Alt (r1 r2 : regex)
| Star (r : regex).

Definition Plus (r : regex) : regex := Seq r (Star r).

Fixpoint nullable (r : regex) : bool :=
  match r with
  | Void => false
  | Eps => true
  | Class _ => false
  | Seq r1 r2 => nullable r1 && nullable r2
  | Alt r1 r2 => nullable r1 || nullable r2
  | Star _ => true
  end.

Fixpoint deriv (c : ascii) (r : regex) : regex :=
  match r with
  | Void => Void
  | Eps => Void
  | Class p => if p c then Eps else Void
  | Seq r1 r2 =>
      if nullable r1
      then Alt (Seq (deriv c r1) r2) (deriv c r2)
      else Seq (deriv c r1) r2
  | Alt r1 r2 => Alt (deriv c r1) (deriv c r2)
  | Star r1 => Seq (deriv c r1) (Star r1)
  end.

Fixpoint fullmatch (r : regex) (s : string) : bool :=
  match s with
  | EmptyString => nullable r
  | String c s' => fullmatch (deriv c r) s'
  end.

(** [s] without one final line feed, when it has one. *)
Fixpoint chop_final_newline (s : string) : option string :=
  match s with
  | EmptyString => None
  | String c EmptyString => if decide (code c = 10) then Some EmptyString else None
  | String c s' => String c <$> chop_final_newline s'
  end.

(** [re.match('^' r '$', s) is not None]: [$] matches at the end of the
    string and also just before a line feed that ends the string. *)
Definition re_match_anchored (r : regex) (s : string) : bool :=
  fullmatch r s ||
  match chop_final_newline s with
  | Some s' => fullmatch r s'
  | None => false
  end.

End Py.
Import Py.

(* ===================================================================== *)
(** * [merge_dicts] (market_scan_workflow.py) *)
(* ===================================================================== *)

Module Reducers.

(** [def merge_dicts(left, right)]: a [Dict] argument that may be [None] is
    an [option]; [left.copy()] followed by [update(right)] is the union in
    which the entries of [right] win. *)
Definition merge_dicts (left right : option (gmap string string))
  : option (gmap string string) :=
  match left with
  | None => right
  | Some l =>
      match right with
      | None => left
      | Some r => Some (r ∪ l)
      end
  end.

End Reducers.

(* ===================================================================== *)
(** * [PdfUtils] (pdf_utils.py) *)
(* ===================================================================== *)

Module PdfUtils.

Local Open Scope Z_scope.

(** ** Data *)

(** A bookmark is the dict [{'title': ..., 'page': ...}]. *)
Record Bookmark : Type := { title : string; page : Z }.

(** A range is the dict with keys [title], [start_page], [end_page],
    [page_count]. *)
Record SectionRange : Type :=
  { sec_title : string; start_page : Z; end_page : Z; page_count : Z }.

(** An entry of a PyPDF2 outline: a destination, or a nested list.  A list
    is a Python object, named by its identity; [Leaf t d] carries what
    [item.title] and [get_destination_page_number(item)] evaluate to. *)
Inductive item : Type :=
| Leaf (item_title : res string) (destination_page : res Z)
| Nested (ref : nat).

Inductive log_entry : Type :=
| LogWarning (msg : string)
| LogError (msg : string).

(** What the interpreter raises when a call would exceed its stack. *)
Definition recursion_error : exn :=
  Exn RecursionError "maximum recursion depth exceeded".

(** ** [parse_outline_recursive] *)

Section Outline.

(** The list objects reachable from the outline, by identity. *)
Variable objects : nat → list item.

(** The [for item in outline] loop, with [call] standing for the
    recursive call.  The inner [try] turns a bad leaf into a warning and
    goes on; the outer [try] is left by any exception of the recursive
    call, which ends the loop. *)
Fixpoint parse_loop
    (call : list item → res (list Bookmark * list log_entry))
    (outline : list item) (bookmarks : list Bookmark) (log : list log_entry)
  : list Bookmark * list log_entry :=
  match outline with
  | [] => (bookmarks, log)
  | Nested r :: rest =>
      match call (objects r) with
      | Ret (bs, lg) => parse_loop call rest (bookmarks ++ bs) (log ++ lg)
      | Raise e =>
          (bookmarks,
           log ++ [LogError ("Error in recursive outline parsing: " +:+ str e)])
      end
  | Leaf t d :: rest =>
      match bind t (λ ttl, bind d (λ page_num,
              Ret {| title := strip ttl; page := page_num |})) with
      | Ret b => parse_loop call rest (bookmarks ++ [b]) log
      | Raise e =>
          parse_loop call rest bookmarks
            (log ++ [LogWarning ("Could not parse bookmark item: " +:+ str e)])
      end
  end.

(** [stack] is the number of nested calls the interpreter still allows:
    a call made with none left raises [RecursionError] at the call site.
    The result is the returned list together with what was logged. *)
Fixpoint parse_outline_recursive (stack : nat) (outline : list item)
  : res (list Bookmark * list log_entry) :=
  match stack with
  | O => Raise recursion_error
  | S stack' => Ret (parse_loop (parse_outline_recursive stack') outline [] [])
  end.

(** The nesting depth of an outline is at most [d]. *)
Fixpoint nesting_le (d : nat) (outline : list item) : bool :=
  forallb (λ it,
    match it with
    | Leaf _ _ => true
    | Nested r =>
        match d with
        | O => false
        | S d' => nesting_le d' (objects r)
        end
    end) outline.

End Outline.

Definition logs_recursion_error (log : list log_entry) : bool :=
  existsb (λ l,
    match l with
    | LogError m =>
        String.eqb m ("Error in recursive outline parsing: " +:+ str recursion_error)
    | LogWarning _ => false
    end) log.

(** ** [filter_main_sections] and [get_bookmark_ranges] *)

(** [r'^\d+\.\s+[A-Z\s]+$'] *)
Definition main_section_re : regex :=
  Seq (Plus (Class is_digit))
    (Seq (Class (λ c, bool_decide (c = "."%char)))
       (Seq (Plus (Class is_space))
          (Plus (Class (λ c, is_upper c || is_space c))))).

Definition is_main_section (b : Bookmark) : bool :=
  re_match_anchored main_section_re (strip (title b)).

(** [list.sort(key=lambda x: x['page'])] and [sorted(..., key=...)]: a
    stable sort; insertion from the right keeps equal keys in their
    original order. *)
Fixpoint insert_by_page (b : Bookmark) (l : list Bookmark) : list Bookmark :=
  match l with
  | [] => [b]
  | c :: l' => if page b <=? page c then b :: c :: l' else c :: insert_by_page b l'
  end.

Fixpoint sort_by_page (l : list Bookmark) : list Bookmark :=
  match l with
  | [] => []
  | b :: l' => insert_by_page b (sort_by_page l')
  end.

Definition filter_main_sections (bookmarks : list Bookmark) : list Bookmark :=
  sort_by_page (List.filter is_main_section bookmarks).

(** The body of the [enumerate] loop at index [i]. *)
Definition range_at (sorted_sections : list Bookmark) (total_pages : Z)
    (i : nat) (bookmark : Bookmark) : option SectionRange :=
  let start := page bookmark in
  let end_ :=
    match sorted_sections !! (i + 1)%nat with
    | Some next => page next - 1
    | None => total_pages - 1
    end in
  if end_ >=? start
  then Some {| sec_title := title bookmark; start_page := start;
               end_page := end_; page_count := end_ - start + 1 |}
  else None.

Definition get_bookmark_ranges (bookmarks : list Bookmark) (total_pages : Z)
  : list SectionRange :=
  let main_sections := filter_main_sections bookmarks in
  match main_sections with
  | [] => []
  | _ =>
      let sorted_sections := sort_by_page main_sections in
      omap id (imap (range_at sorted_sections total_pages) sorted_sections)
  end.

(** ** Reading and writing documents *)

(** What [PyPDF2.PdfReader(file)] gives: the outline (reading it may
    raise), the list objects it is made of, and [len(reader.pages)]. *)
Record PdfReader : Type :=
  { outline : res (list item);
    objects : nat → list item;
    num_pages : res Z }.

Record Env : Type :=
  { PDF_PROCESSING_AVAILABLE : bool;
    output_dir : string;
    (** [open(path, 'rb')] and [PdfReader] on it *)
    open_reader : string → res PdfReader;
    (** [os.path.exists] *)
    path_exists : string → bool;
    (** [os.path.join] *)
    path_join : string → string → string;
    (** [int(time.time())] *)
    now : Z;
    (** writing the listed pages of a source to a new file *)
    write_pdf : string → string → list Z → res ();
    (** nested calls the interpreter allows below [extract_pdf_bookmarks] *)
    stack_left : nat }.

Definition extract_pdf_bookmarks (env : Env) (pdf_path : string) : list Bookmark :=
  catch
    (bind (open_reader env pdf_path) (λ pdf_reader,
     bind (outline pdf_reader) (λ o,
       match o with
       | [] => Ret []
       | _ =>
           bind (parse_outline_recursive (objects pdf_reader) (stack_left env) o)
                (λ r, Ret r.1)
       end)))
    (λ _, []).

Definition get_pdf_page_count (env : Env) (pdf_path : string) : option Z :=
  catch
    (bind (open_reader env pdf_path) (λ pdf_reader,
     bind (num_pages pdf_reader) (λ n, Ret (Some n))))
    (λ _, None).

Definition temp_filename (env : Env) (page_numbers : list Z) : string :=
  "temp_extract_" +:+ pretty (now env) +:+ "_" +:+
  pretty (length page_numbers) +:+ "pages.pdf".

Definition extract_pages (env : Env) (pdf_path : string) (page_numbers : list Z)
  : option string :=
  catch
    (let temp_path := path_join env (output_dir env) (temp_filename env page_numbers) in
     bind (open_reader env pdf_path) (λ pdf_reader,
     bind (num_pages pdf_reader) (λ n,
     bind (write_pdf env pdf_path temp_path
             (List.filter (λ p, (0 <=? p) && (p <? n))
                (merge_sort Z.le page_numbers)))
          (λ _, Ret (Some temp_path)))))
    (λ _, None).

(** ** [extract_pdf_section] *)

Definition matches_keyword (section_keyword : string) (section : SectionRange) : bool :=
  contains (upper section_keyword) (upper (sec_title section)).

(** The [for section in ranges] loop: at the first match the pages are
    extracted, and the loop is left whether or not that worked. *)
Fixpoint extract_first_match (env : Env) (pdf_path section_keyword : string)
    (ranges : list SectionRange) : option string :=
  match ranges with
  | [] => None
  | section :: rest =>
      if matches_keyword section_keyword section
      then
        let pages_to_extract :=
          seqZ (start_page section) (end_page section + 1 - start_page section) in
        match extract_pages env pdf_path pages_to_extract with
        | Some temp_pdf => if is_empty temp_pdf then None else Some temp_pdf
        | None => None
        end
      else extract_first_match env pdf_path section_keyword rest
  end.

Definition extract_pdf_section (env : Env) (pdf_path section_keyword : string)
  : res string :=
  try_except
    (if negb (PDF_PROCESSING_AVAILABLE env) then Ret pdf_path
     else
       match extract_pdf_bookmarks env pdf_path with
       | [] => Ret pdf_path
       | bookmarks =>
           match get_pdf_page_count env pdf_path with
           | None => Ret pdf_path
           | Some total_pages =>
               if total_pages =? 0 then Ret pdf_path
               else
                 match get_bookmark_ranges bookmarks total_pages with
                 | [] => Ret pdf_path
                 | ranges =>
                     match extract_first_match env pdf_path section_keyword ranges with
                     | Some temp_pdf => Ret temp_pdf
                     | None => Ret pdf_path
                     end
                 end
           end
       end)
    (λ _, Ret pdf_path).

(** ** [process_pdf] *)

(** The result dict: [success], [error] (absent on success) and
    [pdf_chunks]. *)
Record ProcessResult : Type :=
  { success : bool;
    error : option string;
    pdf_chunks : option (gmap string string) }.

Definition process_pdf (env : Env) (pdf_path : option string) : ProcessResult :=
  catch
    (match pdf_path with
     | None => Ret {| success := false; error := Some "PDF file not found";
                      pdf_chunks := None |}
     | Some p =>
         if is_empty p || negb (path_exists env p)
         then Ret {| success := false; error := Some "PDF file not found";
                     pdf_chunks := None |}
         else
           bind (extract_pdf_section env p "DIRECTORS") (λ directors,
           bind (extract_pdf_section env p "RATING") (λ rating,
           bind (extract_pdf_section env p "FINANCIALS") (λ financials,
             Ret {| success := true; error := None;
                    pdf_chunks :=
                      Some (<["financials" := financials]>
                              (<["rating" := rating]>
                                 {["directors" := directors]})) |})))
     end)
    (λ e, {| success := false;
             error := Some ("PDF processing error: " +:+ str e);
             pdf_chunks := None |}).

End PdfUtils.

(* ===================================================================== *)
(** * [PromptManager.is_node_enabled] (prompt_manager.py) *)
(* ===================================================================== *)

Module PromptManager.

(** A node of the prompt configuration; only its [enabled] key matters
    here ([None]: the key is absent). *)
Record NodeConfig : Type := { enabled : option bool }.

(** [self.prompts_data['nodes']], or [None] while nothing is loaded. *)
Definition prompts_data : Type := option (gmap string NodeConfig).

Definition is_node_enabled (data : prompts_data) (node_id : string) : res bool :=
  match data with
  | None => Raise (Exn TypeError "'NoneType' object is not subscriptable")
  | Some nodes =>
      match nodes !! node_id with
      | None => Raise (Exn KeyError ("Node '" +:+ node_id +:+ "' not found"))
      | Some cfg => Ret (default true (enabled cfg))
      end
  end.

(** [set_node_enabled]: the flag is changed in memory first, then the
    configuration is saved; [save] is [_save_configuration] on the data it is
    given, and what it raises is raised again.  The result is the state of
    [prompts_data] after the call, and what the call returns or raises. *)
Definition set_node_enabled (save : gmap string NodeConfig → res ())
    (data : prompts_data) (node_id : string) (value : bool)
  : prompts_data * res NodeConfig :=
  match data with
  | None => (None, Raise (Exn TypeError "'NoneType' object is not subscriptable"))
  | Some nodes =>
      match nodes !! node_id with
      | None => (data, Raise (Exn KeyError ("Node '" +:+ node_id +:+ "' not found")))
      | Some cfg =>
          let nodes' := <[ node_id := {| enabled := Some value |} ]> nodes in
          (Some nodes', bind (save nodes') (λ _, Ret {| enabled := Some value |}))
      end
  end.

End PromptManager.

(* ===================================================================== *)
(** * [Config.validate_pdf_config] (config.py) *)
(* ===================================================================== *)

Module Config.

Local Open Scope Z_scope.

(** The PDF settings of [Config], the fields [validate_pdf_config] reads and
    writes. *)
Record PdfConfig : Type :=
  { pdf_processing_mode : string;
    pdf_max_pages : Z;
    pdf_enable_chunking : bool }.

Definition valid_modes : list string :=
  [ "full"; "first_pages"; "smart_sections"; "bookmark_sections"; "keyword_based" ].

(** The three [if] statements, in order: each sees the value the one before
    left. *)
Definition validate_pdf_config (c : PdfConfig) : PdfConfig :=
  let mode :=
    if bool_decide (pdf_processing_mode c ∈ valid_modes)
    then pdf_processing_mode c else "bookmark_sections" in
  let max1 := if 1000 <? pdf_max_pages c then 990 else pdf_max_pages c in
  let max2 := if max1 <? 10 then 100 else max1 in
  {| pdf_processing_mode := mode; pdf_max_pages := max2;
     pdf_enable_chunking := pdf_enable_chunking c |}.

End Config.

(* ===================================================================== *)
(** * [MarketScanWorkflow] (market_scan_workflow.py) *)
(* ===================================================================== *)

Module Workflow.

(** ** State and updates *)

(** [MarketScanState], with the types its [TypedDict] declares; every key
    is present, as in the initial state built by [run]. *)
Record MarketScanState : Type :=
  { company_name : string;
    pdf_path : option string;
    pdf_processed : bool;
    pdf_chunks : option (gmap string string);
    company_overview : option string;
    industry_overview : option string;
    promoters_directors : option string;
    credit_rating : option string;
    financials : option string;
    compliance_checks : option string;
    news_checks : option string;
    final_report : option string;
    errors : list string;
    processing_status : gmap string string }.

(** Values found in the dicts the nodes and [run] return. *)
Inductive pyval : Type :=
| VNone
| VBool (b : bool)
| VStr (s : string)
| VList (l : list string)
| VDict (m : gmap string string).

Definition of_opt (o : option string) : pyval :=
  match o with
  | Some s => VStr s
  | None => VNone
  end.

(** ** Collaborators *)

Record Services : Type :=
  { prompts : PromptManager.prompts_data;
    (** [prompt_manager.get_prompt(node_id, **variables)] *)
    get_prompt : string → list (string * option string) → res string;
    (** [google_search_service._perform_search_analysis] *)
    _perform_search_analysis : string → string → string → res (option string);
    (** [gemini_service.analyze_pdf_from_path] *)
    analyze_pdf_from_path : option string → string → string → res (option string);
    (** [gemini_service.analyze_text_content], with [max_output_tokens];
        the temperature is the constant 0.1 *)
    analyze_text_content : string → string → string → Z → res (option string);
    pdf_env : PdfUtils.Env;
    (** [open(path, 'w')] and [write] *)
    write_text_file : string → string → res ();
    (** [os.path.exists], [os.remove] *)
    file_exists : string → bool;
    remove_file : string → res ();
    (** [report_dir.mkdir(parents=True, exist_ok=True)] and a write to
        [report_dir / name] *)
    make_report_dir : res ();
    write_report_file : string → string → res ();
    (** [datetime.now().strftime(fmt)] and [datetime.now().year] *)
    strftime : string → string;
    year : Z;
    (** [self.workflow.invoke]: the compiled graph *)
    invoke : MarketScanState → res MarketScanState }.

Definition _should_execute_node (svc : Services) (node_id : string) : bool :=
  catch (PromptManager.is_node_enabled (prompts svc) node_id) (λ _, true).

Definition status (node_id value : string) : pyval := VDict {[ node_id := value ]}.

Definition skipped_update (node_id : string) : gmap string pyval :=
  {[ "processing_status" := status node_id "skipped" ]}.

Definition completed_update (node_id result : string) : gmap string pyval :=
  <[ node_id := VStr result ]> {[ "processing_status" := status node_id "completed" ]}.

Definition failed_update (node_id : string) (errs : list string) : gmap string pyval :=
  <[ "errors" := VList errs ]> {[ "processing_status" := status node_id "failed" ]}.

(** ** Bookkeeping nodes *)

Definition _initialize_node (st : MarketScanState) : gmap string pyval :=
  <[ "errors" := VList [] ]>
  (<[ "processing_status" :=
        VDict (<[ "company_overview" := "pending" ]>
              (<[ "industry_overview" := "pending" ]>
              (<[ "promoters_directors" := "pending" ]>
              (<[ "credit_rating" := "pending" ]>
              (<[ "financials" := "pending" ]>
              (<[ "compliance_checks" := "pending" ]>
              {[ "news_checks" := "pending" ]})))))) ]>
   {[ "pdf_processed" := VBool false ]}).


(** ** Analysis nodes *)

(** The body after the enablement check, for the four nodes that use the
    search service. *)
Definition search_node_body (svc : Services) (st : MarketScanState)
    (node_id failure_msg error_prefix : string) : gmap string pyval :=
  catch
    (let name := company_name st in
     bind (get_prompt svc node_id [("company_name", Some name)]) (λ prompt,
     bind (_perform_search_analysis svc name prompt node_id) (λ result,
       match result with
       | Some r =>
           if is_empty r then Ret (failed_update node_id [failure_msg])
           else Ret (completed_update node_id r)
       | None => Ret (failed_update node_id [failure_msg])
       end)))
    (λ e, failed_update node_id [error_prefix +:+ str e]).

(** The body after the enablement check, for the three nodes that read the
    document.  The first log line evaluates
    [state.get('pdf_chunks', {}).keys()], which raises on [None]. *)
Definition pdf_node_body (svc : Services) (st : MarketScanState)
    (node_id chunk_key not_processed_msg failure_msg error_prefix : string)
  : gmap string pyval :=
  catch
    (bind (match pdf_chunks st with
           | Some chunks => Ret chunks
           | None => Raise (Exn AttributeError
                              "'NoneType' object has no attribute 'keys'")
           end) (λ chunks,
     if negb (pdf_processed st)
     then Ret (<[ "errors" := VList [not_processed_msg] ]>
               {[ "processing_status" := status node_id "skipped" ]})
     else
       let name := company_name st in
       let section_pdf :=
         if truthy (chunks !! chunk_key) then chunks !! chunk_key else pdf_path st in
       bind (get_prompt svc node_id [("company_name", Some name)]) (λ prompt,
       bind (analyze_pdf_from_path svc section_pdf name prompt) (λ result,
         match result with
         | Some r =>
             if is_empty r then Ret (failed_update node_id [failure_msg])
             else Ret (completed_update node_id r)
         | None => Ret (failed_update node_id [failure_msg])
         end))))
    (λ e, failed_update node_id [error_prefix +:+ str e]).

Definition _company_overview_node (svc : Services) (st : MarketScanState)
  : gmap string pyval :=
  let node_id := "company_overview" in
  if negb (_should_execute_node svc node_id) then skipped_update node_id
  else search_node_body svc st node_id
         "Failed to analyze company overview" "Company overview error: ".

Definition _industry_overview_node (svc : Services) (st : MarketScanState)
  : gmap string pyval :=
  let node_id := "industry_overview" in
  if negb (_should_execute_node svc node_id) then skipped_update node_id
  else search_node_body svc st node_id
         "Failed to analyze industry overview" "Industry overview error: ".

Definition _promoters_directors_node (svc : Services) (st : MarketScanState)
  : gmap string pyval :=
  let node_id := "promoters_directors" in
  if negb (_should_execute_node svc node_id) then skipped_update node_id
  else pdf_node_body svc st node_id "directors"
         "PDF not processed, skipping directors analysis"
         "Failed to analyze promoters and directors" "Promoters/Directors error: ".

Definition _credit_rating_node (svc : Services) (st : MarketScanState)
  : gmap string pyval :=
  let node_id := "credit_rating" in
  if negb (_should_execute_node svc node_id) then skipped_update node_id
  else pdf_node_body svc st node_id "rating"
         "PDF not processed, skipping credit rating analysis"
         "Failed to analyze credit rating" "Credit rating error: ".

Definition _financials_node (svc : Services) (st : MarketScanState)
  : gmap string pyval :=
  let node_id := "financials" in
  if negb (_should_execute_node svc node_id) then skipped_update node_id
  else pdf_node_body svc st node_id "financials"
         "PDF not processed, skipping financial analysis"
         "Failed to analyze financials" "Financial analysis error: ".

Definition _compliance_checks_node (svc : Services) (st : MarketScanState)
  : gmap string pyval :=
  let node_id := "compliance_checks" in
  if negb (_should_execute_node svc node_id) then skipped_update node_id
  else search_node_body svc st node_id
         "Failed to perform compliance checks" "Compliance checks error: ".

Definition _news_checks_node (svc : Services) (st : MarketScanState)
  : gmap string pyval :=
  let node_id := "news_checks" in
  if negb (_should_execute_node svc node_id) then skipped_update node_id
  else search_node_body svc st node_id
         "Failed to analyze news" "News analysis error: ".

(** ** Reports *)

(** Text given line by line: every line is followed by a line feed. *)
Definition lines (ls : list string) : string :=
  fold_right (λ l acc, l +:+ nl +:+ acc) "" ls.

(** The section order and titles of the concatenated report. *)
Definition sections : list (string * string) :=
  [ ("company_overview", "1. Company & Business Overview");
    ("industry_overview", "2. Industry Overview");
    ("promoters_directors", "3. Promoters and Board of Directors");
    ("credit_rating", "4. Credit Rating History");
    ("financials", "5. Financial Performance");
    ("compliance_checks", "6. Compliance & Due Diligence");
    ("news_checks", "7. News & Media Analysis") ].

Definition report_header (svc : Services) (name : string) : string :=
  lines [ "# CMML Market Scan Report: " +:+ name;
          "*Generated by Piramal Finance Corporate & Mid-Market Lending Team*";
          "*Report Date: " +:+ strftime svc "%d-%b-%Y" +:+ "*";
          "";
          "---";
          "" ].

Definition report_footer (svc : Services) : string :=
  lines [ "";
          "---";
          "**Disclaimer:** This report is generated for internal assessment purposes only. All information is based on publicly available data and should be verified independently.";
          "";
          "*© " +:+ pretty (year svc) +:+ " Piramal Finance Limited. All rights reserved.*" ].

Definition section_rule : string := nl +:+ nl +:+ "---" +:+ nl +:+ nl.

Definition placeholder (section_title : string) : string :=
  "## " +:+ section_title +:+ nl +:+ nl +:+
  "*No data available for this section.*" +:+ section_rule.

(** One turn of the [for section_key, section_title in sections] loop. *)
Definition add_section (node_results : gmap string (option string))
    (report_content : string) (section : string * string) : string :=
  let '(section_key, section_title) := section in
  match node_results !! section_key with
  | Some (Some content) =>
      if is_empty content then report_content +:+ placeholder section_title
      else
        let section_content :=
          if negb (startswith ("## " +:+ section_title) (strip content))
          then "## " +:+ section_title +:+ nl +:+ nl +:+ content
          else content in
        report_content +:+ section_content +:+ section_rule
  | _ => report_content +:+ placeholder section_title
  end.

Definition _create_consolidated_markdown_report (svc : Services)
    (name : string) (node_results : gmap string (option string)) : string :=
  let report_content := fold_left (add_section node_results) sections
                          (report_header svc name) in
  report_content +:+ report_footer svc.

Definition html_sections : list (string * (MarketScanState → option string)) :=
  [ ("Company & Business Overview", company_overview);
    ("Industry Overview", industry_overview);
    ("Promoters and Board of Directors", promoters_directors);
    ("Credit Rating History", credit_rating);
    ("Financial Performance", financials);
    ("Compliance & Due Diligence", compliance_checks);
    ("News & Media Analysis", news_checks) ].

Definition _generate_basic_html_report (svc : Services) (st : MarketScanState)
  : string :=
  let name := company_name st in
  let report :=
    lines [ "";
            "<!DOCTYPE html>";
            "<html>";
            "<head>";
            "    <title>Market Scan Report - " +:+ name +:+ "</title>";
            "    <style>";
            "        body { font-family: 'Arial', sans-serif; margin: 20px; }";
            "        h1 { color: #003366; }";
            "        h2 { color: #0066cc; margin-top: 30px; }";
            "        .section { margin-bottom: 30px; }";
            "    </style>";
            "</head>";
            "<body>";
            "    <h1>Market Scan Report: " +:+ name +:+ "</h1>";
            "    <p>Generated on " +:+ strftime svc "%Y-%m-%d %H:%M:%S" +:+ "</p>" ] in
  let report :=
    fold_left (λ report '(section_title, key),
      match key st with
      | Some content =>
          if is_empty content then report
          else report +:+
               lines [ "";
                       "    <div class=" +:+ dq +:+ "section" +:+ dq +:+ ">";
                       "        <h2>" +:+ section_title +:+ "</h2>";
                       "        " +:+ content;
                       "    </div>" ]
      | None => report
      end) html_sections report in
  report +:+
  lines [ "";
          "    <hr>";
          "    <footer>";
          "        <p><small>Generated by CMML Research Platform - Piramal Finance</small></p>";
          "    </footer>";
          "</body>";
          "</html>" ].

Definition _generate_error_report (st : MarketScanState) : string :=
  let error_list := join nl (map (λ error, "<li>" +:+ error +:+ "</li>") (errors st)) in
  lines [ "";
          "<!DOCTYPE html>";
          "<html>";
          "<head>";
          "    <title>CMML Market Scan - Error Report</title>";
          "    <style>";
          "        body { font-family: Arial, sans-serif; margin: 20px; }";
          "        .error { color: #e74c3c; }";
          "    </style>";
          "</head>";
          "<body>";
          "    <h1>Market Scan Report - Processing Error</h1>";
          "    <p>Company: " +:+ company_name st +:+ "</p>";
          "    <h2 class=" +:+ dq +:+ "error" +:+ dq +:+ ">Errors Encountered:</h2>";
          "    <ul class=" +:+ dq +:+ "error" +:+ dq +:+ ">";
          "        " +:+ error_list;
          "    </ul>";
          "    <p>Please check the input data and try again.</p>";
          "</body>";
          "</html>" ].

(** ** The report writer *)

(** The seven outputs as the writer reads them from the state. *)
Definition node_results_of (st : MarketScanState) : gmap string (option string) :=
  <[ "company_overview" := company_overview st ]>
  (<[ "industry_overview" := industry_overview st ]>
  (<[ "promoters_directors" := promoters_directors st ]>
  (<[ "credit_rating" := credit_rating st ]>
  (<[ "financials" := financials st ]>
  (<[ "compliance_checks" := compliance_checks st ]>
  {[ "news_checks" := news_checks st ]}))))).

Definition all_content (st : MarketScanState) : string :=
  join (nl +:+ nl)
    [ "# Section 1: Company & Business Overview" +:+ nl +:+ fmt (company_overview st);
      "# Section 2: Industry Overview" +:+ nl +:+ fmt (industry_overview st);
      "# Section 3: Promoters and Board of Directors" +:+ nl +:+ fmt (promoters_directors st);
      "# Section 4: Credit Rating History" +:+ nl +:+ fmt (credit_rating st);
      "# Section 5: Financial Performance" +:+ nl +:+ fmt (financials st);
      "# Section 6: Compliance & Due Diligence" +:+ nl +:+ fmt (compliance_checks st);
      "# Section 7: News & Media Analysis" +:+ nl +:+ fmt (news_checks st) ].

Definition consolidator_variables (st : MarketScanState)
  : list (string * option string) :=
  [ ("company_name", Some (company_name st));
    ("company_overview", company_overview st);
    ("industry_overview", industry_overview st);
    ("promoters_directors", promoters_directors st);
    ("credit_rating", credit_rating st);
    ("financials", financials st);
    ("compliance_checks", compliance_checks st);
    ("news_checks", news_checks st) ].

(** [if os.path.exists(p): os.remove(p)] *)
Definition remove_if_exists (svc : Services) (p : string) : res () :=
  if file_exists svc p then remove_file svc p else Ret ().

Definition final_report_update (report : string) : gmap string pyval :=
  {[ "final_report" := VStr report ]}.

Definition error_report_update (st : MarketScanState) (errs : list string)
  : gmap string pyval :=
  <[ "final_report" := VStr (_generate_error_report st) ]>
  {[ "errors" := VList errs ]}.

(** The inner [try] of the writer: the LLM call and the saving of both
    report versions. *)
Definition consolidate (svc : Services) (st : MarketScanState)
    (prompt dummy_pdf_path : string) : res (gmap string pyval) :=
  let name := company_name st in
  let file_stem := replace_char " " "_" name in
  bind (analyze_text_content svc (all_content st) prompt name 16384) (λ llm_final_report,
  bind (remove_if_exists svc dummy_pdf_path) (λ _,
    let final :=
      if negb (truthy llm_final_report)
      then _create_consolidated_markdown_report svc name (node_results_of st)
      else default "" llm_final_report in
    bind (make_report_dir svc) (λ _,
      let timestamp := strftime svc "%Y%m%d_%H%M%S" in
      bind (if truthy llm_final_report
            then write_report_file svc (file_stem +:+ "_" +:+ timestamp +:+ "_llm.md")
                   (default "" llm_final_report)
            else Ret ()) (λ _,
      let markdown_report :=
        _create_consolidated_markdown_report svc name (node_results_of st) in
      bind (write_report_file svc (file_stem +:+ "_" +:+ timestamp +:+ "_concat.md")
              markdown_report) (λ _,
        Ret (final_report_update final)))))).

(** The handler of the inner [try]. *)
Definition consolidate_fallback (svc : Services) (st : MarketScanState)
    (dummy_pdf_path : string) (e : exn) : res (gmap string pyval) :=
  bind (remove_if_exists svc dummy_pdf_path) (λ _,
    try_except
      (Ret (final_report_update
              (_create_consolidated_markdown_report svc (company_name st)
                 (node_results_of st))))
      (λ md_error,
         Ret (<[ "final_report" := VStr (_generate_basic_html_report svc st) ]>
              {[ "errors" := VList [ "Report generation error: " +:+ str e;
                                     "Markdown fallback error: " +:+ str md_error ] ]}))).

Definition _report_writer_node (svc : Services) (st : MarketScanState)
  : gmap string pyval :=
  catch
    (let name := company_name st in
     if negb (truthy (company_overview st)) && negb (truthy (industry_overview st))
        && negb (truthy (promoters_directors st))
     then Ret (error_report_update st
                 ["Insufficient data to generate comprehensive report"])
     else
       bind (get_prompt svc "report_consolidator" (consolidator_variables st)) (λ prompt,
         let dummy_pdf_path :=
           "temp_dummy_pdf_for_" +:+ replace_char " " "_" name +:+ ".pdf" in
         bind (write_text_file svc dummy_pdf_path
                 "DUMMY PDF FOR API CALL - CONTENT IS PASSED IN PROMPT") (λ _,
           try_except (consolidate svc st prompt dummy_pdf_path)
                      (consolidate_fallback svc st dummy_pdf_path))))
    (λ e, error_report_update st ["Report consolidation error: " +:+ str e]).

(** ** [run] *)

Definition initial_state (name : string) (path : option string) : MarketScanState :=
  {| company_name := name; pdf_path := path; pdf_processed := false;
     pdf_chunks := None;
     company_overview := None; industry_overview := None;
     promoters_directors := None; credit_rating := None; financials := None;
     compliance_checks := None; news_checks := None;
     final_report := None; errors := []; processing_status := ∅ |}.

Definition run (svc : Services) (name : string) (path : option string)
  : res (gmap string pyval) :=
  try_except
    (bind (invoke svc (initial_state name path)) (λ final_state,
       Ret (<[ "success" := VBool true ]>
           (<[ "report" := of_opt (final_report final_state) ]>
           (<[ "company" := VStr name ]>
           (<[ "errors" := VList (errors final_state) ]>
           (<[ "processing_status" := VDict (processing_status final_state) ]>
           (<[ "company_overview" := of_opt (company_overview final_state) ]>
           (<[ "industry_overview" := of_opt (industry_overview final_state) ]>
           (<[ "promoters_directors" := of_opt (promoters_directors final_state) ]>
           (<[ "credit_rating" := of_opt (credit_rating final_state) ]>
           (<[ "financials" := of_opt (financials final_state) ]>
           (<[ "compliance_checks" := of_opt (compliance_checks final_state) ]>
           {[ "news_checks" := of_opt (news_checks final_state) ]})))))))))))))
    (λ e,
       Ret (<[ "success" := VBool false ]>
           (<[ "report" := VNone ]>
           (<[ "company" := VStr name ]>
           (<[ "errors" := VList [str e] ]>
           {[ "processing_status" := VDict ∅ ]}))))).

End Workflow.

(* ===================================================================== *)
(** * Vocabulary of the properties, and the inputs used as examples *)
(* ===================================================================== *)

Module RangeSpec.
Import PdfUtils.
Local Open Scope Z_scope.

(** The loop of [get_bookmark_ranges] as a recursion on the sorted list:
    the successor of an element is the head of what follows it. *)
Fixpoint ranges_from (total_pages : Z) (l : list Bookmark) : list SectionRange :=
  match l with
  | [] => []
  | b :: rest =>
      let end_ :=
        match rest with
        | next :: _ => page next - 1
        | [] => total_pages - 1
        end in
      if end_ >=? page b
      then {| sec_title := title b; start_page := page b;
              end_page := end_; page_count := end_ - page b + 1 |}
           :: ranges_from total_pages rest
      else ranges_from total_pages rest
  end.

Definition covers (p : Z) (r : SectionRange) : bool :=
  (start_page r <=? p) && (p <=? end_page r).

(** How many ranges contain page [p]. *)
Definition cover_count (p : Z) (rs : list SectionRange) : nat :=
  length (List.filter (covers p) rs).

Definition sorted_by_start (rs : list SectionRange) : Prop :=
  ∀ (i j : nat) r1 r2, (i < j)%nat →
    rs !! i = Some r1 → rs !! j = Some r2 → start_page r1 < start_page r2.

Definition contiguous (rs : list SectionRange) : Prop :=
  ∀ (i : nat) r1 r2,
    rs !! i = Some r1 → rs !! S i = Some r2 → end_page r1 + 1 = start_page r2.

Definition well_formed (r : SectionRange) : Prop :=
  start_page r ≤ end_page r ∧ page_count r = end_page r - start_page r + 1.

(** The invariant as the specification words it: sorted, contiguous, and
    every page of the document in exactly one range. *)
Definition covers_document_once (rs : list SectionRange) (total_pages : Z) : Prop :=
  sorted_by_start rs ∧ contiguous rs ∧
  ∀ p, 0 ≤ p < total_pages → cover_count p rs = 1%nat.

(** Consecutive ranges, as a recursion. *)
Fixpoint chained (rs : list SectionRange) : Prop :=
  match rs with
  | r1 :: (r2 :: _) as tl => end_page r1 + 1 = start_page r2 ∧ chained tl
  | _ => True
  end.

Definition pages_le (a b : Bookmark) : Prop := page a ≤ page b.

(** A document whose only canonical section starts on page 5. *)
Definition late_start : list Bookmark := [ {| title := "1. PROFILE"; page := 5 |} ].

Definition four_sections : list Bookmark :=
  [ {| title := "1. PROFILE"; page := 0 |};
    {| title := "2. DIRECTORS"; page := 5 |};
    {| title := "4. RATING"; page := 12 |};
    {| title := "5. FINANCIALS"; page := 30 |} ].

Definition mk_range (t : string) (s e : Z) : SectionRange :=
  {| sec_title := t; start_page := s; end_page := e; page_count := e - s + 1 |}.

(** Boolean comparisons in the hypotheses, as inequalities. *)
Ltac leb_to_Z :=
  repeat match goal with
  | H : (_ <=? _) = true |- _ => apply Z.leb_le in H
  | H : (_ <=? _) = false |- _ => apply Z.leb_gt in H
  end.

End RangeSpec.


Module OutlineSpec.
Import PdfUtils.

(** The call needed more stack than it was given: it raised
    [RecursionError] itself, or caught one below and logged it. *)
Definition recursion_cut (objects : nat → list item) (stack : nat)
    (outline : list item) : bool :=
  match parse_outline_recursive objects stack outline with
  | Ret r => logs_recursion_error r.2
  | Raise _ => true
  end.

(** A ceiling [D] on the depth of the recursion: whenever at least [D]
    nested calls are available, none is refused. *)
Definition depth_bounded_by (D : nat) (objects : nat → list item)
    (outline : list item) : Prop :=
  ∀ stack, D ≤ stack → recursion_cut objects stack outline = false.

(** [l = []; l.append(l)]: a list whose only entry is the list itself. *)
Definition self_ref_objects : nat → list item := λ _, [Nested 0].
Definition self_ref_outline : list item := self_ref_objects 0.

(** Two sections around a nested list of two sub-entries, one of them
    without a resolvable destination. *)
Definition nested_objects : nat → list item := λ _,
  [ Leaf (Ret " 1.1 History ") (Ret 2%Z);
    Leaf (Ret "1.2 Broken") (Raise (Exn OtherException "no destination")) ].

Definition nested_outline : list item :=
  [ Leaf (Ret "1. PROFILE") (Ret 0%Z);
    Nested 7;
    Leaf (Ret "2. DIRECTORS") (Ret 5%Z) ].

End OutlineSpec.

Module ExtractSpec.
Import PdfUtils RangeSpec.
Local Open Scope Z_scope.

(** [range(section['start_page'], section['end_page'] + 1)] *)
Definition pages_of (section : SectionRange) : list Z :=
  seqZ (start_page section) (end_page section + 1 - start_page section).

(** What the loop returns once it has stopped at [section]. *)
Definition outcome_at (env : Env) (pdf_path : string) (section : SectionRange)
  : option string :=
  match extract_pages env pdf_path (pages_of section) with
  | Some temp_pdf => if is_empty temp_pdf then None else Some temp_pdf
  | None => None
  end.

(** [section] is the first range whose title contains the keyword, and no
    matching range starts on an earlier page. *)
Definition first_match (section_keyword : string) (ranges : list SectionRange)
    (section : SectionRange) : Prop :=
  ∃ i : nat,
    ranges !! i = Some section ∧ matches_keyword section_keyword section = true ∧
    (∀ (j : nat) r, (j < i)%nat → ranges !! j = Some r →
       matches_keyword section_keyword r = false) ∧
    (∀ r, r ∈ ranges → matches_keyword section_keyword r = true →
       start_page section ≤ start_page r).

(** The internal failures of an extraction. *)
Inductive extraction_failure (env : Env) (pdf_path section_keyword : string) : Prop :=
| library_missing :
    PDF_PROCESSING_AVAILABLE env = false →
    extraction_failure env pdf_path section_keyword
| unreadable_document :
    raises (open_reader env pdf_path) →
    extraction_failure env pdf_path section_keyword
| no_outline reader :
    open_reader env pdf_path = Ret reader →
    raises (outline reader) ∨ outline reader = Ret [] →
    extraction_failure env pdf_path section_keyword
| no_bookmarks :
    extract_pdf_bookmarks env pdf_path = [] →
    extraction_failure env pdf_path section_keyword
| no_page_count :
    get_pdf_page_count env pdf_path = None ∨ get_pdf_page_count env pdf_path = Some 0 →
    extraction_failure env pdf_path section_keyword
| no_canonical_sections total_pages :
    get_pdf_page_count env pdf_path = Some total_pages →
    get_bookmark_ranges (extract_pdf_bookmarks env pdf_path) total_pages = [] →
    extraction_failure env pdf_path section_keyword
| keyword_not_found total_pages :
    get_pdf_page_count env pdf_path = Some total_pages →
    (∀ r, r ∈ get_bookmark_ranges (extract_pdf_bookmarks env pdf_path) total_pages →
          matches_keyword section_keyword r = false) →
    extraction_failure env pdf_path section_keyword
| pages_not_written total_pages section :
    get_pdf_page_count env pdf_path = Some total_pages →
    first_match section_keyword
      (get_bookmark_ranges (extract_pdf_bookmarks env pdf_path) total_pages) section →
    (extract_pages env pdf_path (pages_of section) = None ∨
     extract_pages env pdf_path (pages_of section) = Some "") →
    extraction_failure env pdf_path section_keyword.

(** The extraction worked: [result] is the file written from the pages of
    the first matching range. *)
Definition extracted (env : Env) (pdf_path section_keyword result : string) : Prop :=
  ∃ total_pages section,
    PDF_PROCESSING_AVAILABLE env = true ∧
    get_pdf_page_count env pdf_path = Some total_pages ∧ total_pages ≠ 0 ∧
    first_match section_keyword
      (get_bookmark_ranges (extract_pdf_bookmarks env pdf_path) total_pages) section ∧
    extract_pages env pdf_path (pages_of section) = Some result ∧
    result ≠ "".

(** A readable 40-page report with four canonical sections and one
    sub-entry. *)
Definition sample_reader : PdfReader :=
  {| outline := Ret [ Leaf (Ret "1. PROFILE") (Ret 0);
                      Leaf (Ret "2. DIRECTORS") (Ret 5);
                      Nested 1;
                      Leaf (Ret "4. RATING") (Ret 12);
                      Leaf (Ret "5. FINANCIALS") (Ret 30) ];
     objects := λ _, [ Leaf (Ret "Appendix A") (Ret 7) ];
     num_pages := Ret 40 |}.

Definition sample_env : Env :=
  {| PDF_PROCESSING_AVAILABLE := true;
     output_dir := "outputs";
     open_reader := λ _, Ret sample_reader;
     path_exists := λ _, true;
     path_join := λ d f, d +:+ "/" +:+ f;
     now := 1700000000;
     write_pdf := λ _ _ _, Ret ();
     stack_left := 900 |}.

(** The same document when it cannot be opened. *)
Definition broken_env : Env :=
  {| PDF_PROCESSING_AVAILABLE := true;
     output_dir := "outputs";
     open_reader := λ _, Raise (Exn OSError "No such file or directory");
     path_exists := λ _, false;
     path_join := λ d f, d +:+ "/" +:+ f;
     now := 1700000000;
     write_pdf := λ _ _ _, Ret ();
     stack_left := 900 |}.

(** The path of the file [extract_pages] writes. *)
Definition temp_path_of (env : Env) (page_numbers : list Z) : string :=
  path_join env (output_dir env)
    ("temp_extract_" +:+ pretty (now env) +:+ "_" +:+
     pretty (length page_numbers) +:+ "pages.pdf").

(** A leaf whose title or destination cannot be read. *)
Definition leaf_fails (t : res string) (d : res Z) : Prop := raises t ∨ raises d.

(** The three chunks of a processed document. *)
Definition chunks_of (directors rating financials : string) : gmap string string :=
  <["financials" := financials]> (<["rating" := rating]> {["directors" := directors]}).

Definition file_missing (env : Env) (pdf_path : option string) : Prop :=
  pdf_path = None ∨ pdf_path = Some "" ∨
  ∃ p, pdf_path = Some p ∧ path_exists env p = false.

Definition not_found_result : ProcessResult :=
  {| success := false; error := Some "PDF file not found"; pdf_chunks := None |}.

End ExtractSpec.

Module WorkflowSpec.
Import Workflow.

(** The seven analysis nodes. *)
Inductive node : Type :=
| CompanyOverview | IndustryOverview | PromotersDirectors | CreditRating
| Financials | ComplianceChecks | NewsChecks.

Definition all_nodes : list node :=
  [ CompanyOverview; IndustryOverview; PromotersDirectors; CreditRating;
    Financials; ComplianceChecks; NewsChecks ].

(** The identifier of a node: its status key and its output slot. *)
Definition node_id (n : node) : string :=
  match n with
  | CompanyOverview => "company_overview"
  | IndustryOverview => "industry_overview"
  | PromotersDirectors => "promoters_directors"
  | CreditRating => "credit_rating"
  | Financials => "financials"
  | ComplianceChecks => "compliance_checks"
  | NewsChecks => "news_checks"
  end.

Definition output_slots : list string := node_id <$> all_nodes.

(** The node function of each node. *)
Definition node_fn (n : node) : Services → MarketScanState → gmap string pyval :=
  match n with
  | CompanyOverview => _company_overview_node
  | IndustryOverview => _industry_overview_node
  | PromotersDirectors => _promoters_directors_node
  | CreditRating => _credit_rating_node
  | Financials => _financials_node
  | ComplianceChecks => _compliance_checks_node
  | NewsChecks => _news_checks_node
  end.

(** What a node does once the enablement check has let it through. *)
Definition node_body (n : node) (svc : Services) (st : MarketScanState)
  : gmap string pyval :=
  match n with
  | CompanyOverview =>
      search_node_body svc st "company_overview"
        "Failed to analyze company overview" "Company overview error: "
  | IndustryOverview =>
      search_node_body svc st "industry_overview"
        "Failed to analyze industry overview" "Industry overview error: "
  | PromotersDirectors =>
      pdf_node_body svc st "promoters_directors" "directors"
        "PDF not processed, skipping directors analysis"
        "Failed to analyze promoters and directors" "Promoters/Directors error: "
  | CreditRating =>
      pdf_node_body svc st "credit_rating" "rating"
        "PDF not processed, skipping credit rating analysis"
        "Failed to analyze credit rating" "Credit rating error: "
  | Financials =>
      pdf_node_body svc st "financials" "financials"
        "PDF not processed, skipping financial analysis"
        "Failed to analyze financials" "Financial analysis error: "
  | ComplianceChecks =>
      search_node_body svc st "compliance_checks"
        "Failed to perform compliance checks" "Compliance checks error: "
  | NewsChecks =>
      search_node_body svc st "news_checks"
        "Failed to analyze news" "News analysis error: "
  end.

Definition reads_document (n : node) : bool :=
  match n with
  | PromotersDirectors | CreditRating | Financials => true
  | _ => false
  end.

Definition error_prefix (n : node) : string :=
  match n with
  | CompanyOverview => "Company overview error: "
  | IndustryOverview => "Industry overview error: "
  | PromotersDirectors => "Promoters/Directors error: "
  | CreditRating => "Credit rating error: "
  | Financials => "Financial analysis error: "
  | ComplianceChecks => "Compliance checks error: "
  | NewsChecks => "News analysis error: "
  end.

(** The three shapes of the update of a node that ran. *)
Inductive ran_outcome (id : string) : gmap string pyval → Prop :=
| ran_no_document msg :
    ran_outcome id (<[ "errors" := VList [msg] ]>
                    {[ "processing_status" := status id "skipped" ]})
| ran_completed result :
    result ≠ "" → ran_outcome id (completed_update id result)
| ran_failed msg :
    ran_outcome id (failed_update id [msg]).

(** The update a node returns: the one of a disabled node, or one of the
    three above. *)
Inductive node_outcome (id : string) : gmap string pyval → Prop :=
| outcome_disabled : node_outcome id (skipped_update id)
| outcome_ran d : ran_outcome id d → node_outcome id d.

(** How many of the three foundational outputs are there. *)
Definition populated (o : option string) : nat := if truthy o then 1 else 0.

Definition foundational_count (st : MarketScanState) : nat :=
  populated (company_overview st) + populated (industry_overview st)
  + populated (promoters_directors st).

Definition insufficient_data_update (st : MarketScanState) : gmap string pyval :=
  error_report_update st ["Insufficient data to generate comprehensive report"].

(** The update carries the error report of [st]. *)
Definition is_error_report_update (st : MarketScanState) (d : gmap string pyval) : Prop :=
  d !! "final_report" = Some (VStr (_generate_error_report st)) ∧
  is_Some (d !! "errors").

(** The block of one section in the concatenated report. *)
Definition section_block (node_results : gmap string (option string))
    (section : string * string) : string :=
  add_section node_results "" section.

(** [s] begins with [p], after leading whitespace. *)
Definition begins_after_space (p s : string) : Prop :=
  ∃ lead rest, s = lead +:+ p +:+ rest ∧ lstrip lead = "".

Definition ends_with (suffix s : string) : Prop := ∃ front, s = front +:+ suffix.
Definition begins_with (prefix s : string) : Prop := ∃ rest, s = prefix +:+ rest.
Definition has_substring (sub s : string) : Prop := ∃ a b, s = a +:+ sub +:+ b.

(** Collaborators that all answer: the search and the document service give
    text, the file system and the clock work, and the graph is the identity. *)
Definition quiet_services (nodes : PromptManager.prompts_data)
    (llm : res (option string)) : Services :=
  {| prompts := nodes;
     get_prompt := λ id _, Ret ("prompt for " +:+ id);
     _perform_search_analysis := λ name _ _, Ret (Some ("about " +:+ name));
     analyze_pdf_from_path := λ _ _ _, Ret (Some "from the document");
     analyze_text_content := λ _ _ _ _, llm;
     pdf_env := ExtractSpec.sample_env;
     write_text_file := λ _ _, Ret ();
     file_exists := λ _, true;
     remove_file := λ _, Ret ();
     make_report_dir := Ret ();
     write_report_file := λ _ _, Ret ();
     strftime := λ _, "01-Jan-2026";
     year := 2026;
     invoke := λ st, Ret st |}.

(** A configuration in which compliance checks are switched off. *)
Definition compliance_off : PromptManager.prompts_data :=
  Some {[ "compliance_checks" := {| PromptManager.enabled := Some false |} ]}.

(** A state in which only the company overview has been produced. *)
Definition overview_only : MarketScanState :=
  {| company_name := "Acme Ltd"; pdf_path := None; pdf_processed := false;
     pdf_chunks := None;
     company_overview := Some "Acme makes anvils."; industry_overview := None;
     promoters_directors := None; credit_rating := None; financials := None;
     compliance_checks := None; news_checks := None;
     final_report := None; errors := []; processing_status := ∅ |}.

(** The scratch file of the writer and the concatenated report of a state. *)
Definition dummy_pdf_path_of (st : MarketScanState) : string :=
  "temp_dummy_pdf_for_" +:+ replace_char " " "_" (company_name st) +:+ ".pdf".

Definition markdown_report_of (svc : Services) (st : MarketScanState) : string :=
  _create_consolidated_markdown_report svc (company_name st) (node_results_of st).

(** The writer got past the prompt lookup and the scratch file, and the
    scratch file can be removed. *)
Definition scratch_ok (svc : Services) (st : MarketScanState) : Prop :=
  returns (get_prompt svc "report_consolidator" (consolidator_variables st)) ∧
  write_text_file svc (dummy_pdf_path_of st)
    "DUMMY PDF FOR API CALL - CONTENT IS PASSED IN PROMPT" = Ret () ∧
  remove_if_exists svc (dummy_pdf_path_of st) = Ret ().

(** The text-mode call gave no text: it returned [None] or [''], or raised. *)
Definition no_text (c : res (option string)) : Prop :=
  c = Ret None ∨ c = Ret (Some "") ∨ raises c.

(** The call of the writer to the text-mode service. *)
Definition llm_call (svc : Services) (st : MarketScanState) (prompt : string)
  : res (option string) :=
  analyze_text_content svc (all_content st) prompt (company_name st) 16384.

(** Saving the two report copies raised. *)
Definition saving_fails (svc : Services) (st : MarketScanState) : Prop :=
  raises (make_report_dir svc) ∨
  (make_report_dir svc = Ret () ∧
   ∀ name content, raises (write_report_file svc name content)).

Definition concat_all (l : list string) : string := fold_right String.append "" l.

Definition absent_or_empty (v : option (option string)) : Prop :=
  v = None ∨ v = Some None ∨ v = Some (Some "").

(** Collaborators as in [quiet_services], except that no report file can be
    written. *)
Definition read_only_services (llm : res (option string)) : Services :=
  {| prompts := None;
     get_prompt := λ id _, Ret ("prompt for " +:+ id);
     _perform_search_analysis := λ name _ _, Ret (Some ("about " +:+ name));
     analyze_pdf_from_path := λ _ _ _, Ret (Some "from the document");
     analyze_text_content := λ _ _ _ _, llm;
     pdf_env := ExtractSpec.sample_env;
     write_text_file := λ _ _, Ret ();
     file_exists := λ _, true;
     remove_file := λ _, Ret ();
     make_report_dir := Ret ();
     write_report_file := λ _ _, Raise (Exn OSError "Read-only file system");
     strftime := λ _, "01-Jan-2026";
     year := 2026;
     invoke := λ st, Ret st |}.

(** Collaborators whose prompt catalogue has no consolidation prompt. *)
Definition no_prompt_services : Services :=
  {| prompts := None;
     get_prompt := λ id _, Raise (Exn KeyError ("Node '" +:+ id +:+ "' not found"));
     _perform_search_analysis := λ name _ _, Ret (Some ("about " +:+ name));
     analyze_pdf_from_path := λ _ _ _, Ret (Some "from the document");
     analyze_text_content := λ _ _ _ _, Ret (Some "REPORT");
     pdf_env := ExtractSpec.sample_env;
     write_text_file := λ _ _, Ret ();
     file_exists := λ _, true;
     remove_file := λ _, Ret ();
     make_report_dir := Ret ();
     write_report_file := λ _ _, Ret ();
     strftime := λ _, "01-Jan-2026";
     year := 2026;
     invoke := λ _, Raise (Exn OtherException "graph failed") |}.

(** The output slot of a node in a state. *)
Definition slot (n : node) : MarketScanState → option string :=
  match n with
  | CompanyOverview => company_overview
  | IndustryOverview => industry_overview
  | PromotersDirectors => promoters_directors
  | CreditRating => credit_rating
  | Financials => financials
  | ComplianceChecks => compliance_checks
  | NewsChecks => news_checks
  end.

(** The status map [_initialize_node] writes. *)
Definition initial_statuses : gmap string string :=
  <[ "company_overview" := "pending" ]>
  (<[ "industry_overview" := "pending" ]>
  (<[ "promoters_directors" := "pending" ]>
  (<[ "credit_rating" := "pending" ]>
  (<[ "financials" := "pending" ]>
  (<[ "compliance_checks" := "pending" ]>
  {[ "news_checks" := "pending" ]}))))).

End WorkflowSpec.
(* ===================================================================== *)
(** * The range calculator *)
(* ===================================================================== *)

Module RangeFacts.
Import PdfUtils RangeSpec.
Local Open Scope Z_scope.

(** ** The sort *)

Lemma insert_by_page_perm b l : insert_by_page b l ≡ₚ b :: l.
Proof.
  induction l as [|c l IH]; simpl; [done|].
  destruct (page b <=? page c); [done|].
  rewrite IH. apply Permutation_swap.
Qed.

Lemma sort_by_page_perm l : sort_by_page l ≡ₚ l.
Proof.
  induction l as [|b l IH]; simpl; [done|].
  by rewrite insert_by_page_perm, IH.
Qed.

Lemma insert_by_page_sorted b l :
  StronglySorted pages_le l → StronglySorted pages_le (insert_by_page b l).
Proof.
  induction 1 as [|c l Hl IH Hc]; simpl.
  - repeat constructor.
  - destruct (page b <=? page c) eqn:E.
    + apply Z.leb_le in E. constructor; [by constructor|].
      constructor; [done|].
      eapply Forall_impl; [exact Hc|]. unfold pages_le. intros; lia.
    + apply Z.leb_gt in E. constructor; [done|].
      rewrite insert_by_page_perm. constructor; [unfold pages_le; lia | done].
Qed.

Lemma sort_by_page_sorted l : StronglySorted pages_le (sort_by_page l).
Proof.
  induction l; simpl; [constructor | by apply insert_by_page_sorted].
Qed.

Lemma filter_main_sections_elem b bookmarks :
  b ∈ filter_main_sections bookmarks ↔ b ∈ bookmarks ∧ is_main_section b = true.
Proof.
  unfold filter_main_sections. rewrite sort_by_page_perm.
  rewrite !list_elem_of_In, filter_In. tauto.
Qed.

(** ** From the indexed loop to the recursion *)

Lemma ranges_loop_shift total l : ∀ pre,
  omap id (imap (λ i, range_at (pre ++ l) total (length pre + i)) l)
  = ranges_from total l.
Proof.
  induction l as [|b l IH]; intros pre; [done|].
  simpl imap. simpl omap.
  assert (Hnext : (pre ++ b :: l) !! (length pre + 0 + 1)%nat = head l).
  { rewrite lookup_app_r by lia.
    replace (length pre + 0 + 1 - length pre)%nat with 1%nat by lia.
    by destruct l. }
  assert (Htail :
    omap id (imap ((λ i, range_at (pre ++ b :: l) total (length pre + i)) ∘ S) l)
    = ranges_from total l).
  { rewrite <- (IH (pre ++ [b])).
    f_equal. apply imap_ext. intros i x _. simpl.
    rewrite <- app_assoc. simpl. rewrite length_app. simpl.
    f_equal. lia. }
  unfold range_at at 1. rewrite Hnext. simpl ranges_from.
  unfold omap in Htail. rewrite Htail.
  destruct l as [|c l]; cbn [head].
  - destruct (total - 1 >=? page b); done.
  - destruct (page c - 1 >=? page b); done.
Qed.

Lemma get_bookmark_ranges_eq bookmarks total :
  get_bookmark_ranges bookmarks total
  = ranges_from total (sort_by_page (filter_main_sections bookmarks)).
Proof.
  unfold get_bookmark_ranges.
  destruct (filter_main_sections bookmarks) as [|b l] eqn:E; [done|].
  exact (ranges_loop_shift total (sort_by_page (b :: l)) []).
Qed.

(** ** The recursion on a sorted list *)

Lemma ranges_from_well_formed total l r :
  r ∈ ranges_from total l → well_formed r.
Proof.
  induction l as [|b l IH]; simpl; [by intros ?%elem_of_nil|].
  match goal with |- context [ ?e >=? page b ] => destruct (e >=? page b) eqn:E end;
    [|done].
  intros [->|H]%elem_of_cons; [|by apply IH].
  split; simpl; lia.
Qed.

Lemma ranges_from_head total b l r rs :
  StronglySorted pages_le (b :: l) →
  ranges_from total (b :: l) = r :: rs → start_page r = page b.
Proof.
  revert b. induction l as [|c l IH]; intros b Hs; simpl.
  - destruct (total - 1 >=? page b); [|done]. by intros [= <- _].
  - destruct (page c - 1 >=? page b) eqn:E; [by intros [= <- _]|].
    intros H. apply StronglySorted_inv in Hs as [Hs Hb].
    apply Forall_cons in Hb as [Hbc _]. unfold pages_le in Hbc.
    rewrite (IH c Hs H). lia.
Qed.

Lemma ranges_from_chained total l :
  StronglySorted pages_le l → chained (ranges_from total l).
Proof.
  induction l as [|b l IH]; intros Hs; [done|].
  pose proof (StronglySorted_inv Hs) as [Hl _].
  specialize (IH Hl). simpl.
  match goal with |- context [ ?e >=? page b ] => destruct (e >=? page b) eqn:E end;
    [|done].
  destruct (ranges_from total l) as [|r2 rs] eqn:Er; [done|].
  split; [|done]. simpl.
  destruct l as [|c l]; [done|].
  symmetry. rewrite (ranges_from_head total c l r2 rs Hl Er). lia.
Qed.

Lemma ranges_from_last total l b0 :
  l ≠ [] → Forall (λ b, page b < total) l →
  ∃ r rs, ranges_from total l = rs ++ [r] ∧ end_page r = total - 1
          ∧ page (List.last l b0) = start_page r.
Proof.
  induction l as [|b l IH]; [done|]. intros _ Hall.
  apply Forall_cons in Hall as [Hb Hall].
  destruct l as [|c l].
  - simpl. destruct (total - 1 >=? page b) eqn:E; [|lia].
    eexists _, []. simpl. done.
  - destruct (IH ltac:(done) Hall) as (r & rs & Hr & He & Hlast).
    change (ranges_from total (b :: c :: l)) with
      (if page c - 1 >=? page b
       then mk_range (title b) (page b) (page c - 1) :: ranges_from total (c :: l)
       else ranges_from total (c :: l)).
    rewrite Hr. change (List.last (b :: c :: l) b0) with (List.last (c :: l) b0).
    destruct (page c - 1 >=? page b).
    + exists r, (mk_range (title b) (page b) (page c - 1) :: rs). done.
    + exists r, rs. done.
Qed.

(** ** Counting the ranges that contain a page *)

Lemma last_cons_default {A} (x : A) l d d' :
  List.last (x :: l) d = List.last (x :: l) d'.
Proof.
  revert x. induction l as [|y l IH]; intros x; [done|].
  change (List.last (y :: l) d = List.last (y :: l) d'). apply IH.
Qed.

Lemma chained_cover_count p rs :
  chained rs → Forall well_formed rs →
  match rs with
  | [] => cover_count p rs = 0%nat
  | r :: _ =>
      cover_count p rs =
        if (start_page r <=? p) && (p <=? end_page (List.last rs r)) then 1%nat else 0%nat
  end.
Proof.
  induction rs as [|r rs IH]; [done|]. intros Hc Hwf.
  apply Forall_cons in Hwf as [[Hr _] Hwf].
  destruct rs as [|r2 rs].
  - unfold cover_count, covers. simpl.
    destruct ((start_page r <=? p) && (p <=? end_page r)); done.
  - destruct Hc as [Hadj Hc]. specialize (IH Hc Hwf). cbv beta match in IH.
    assert (Hlast : start_page r2 ≤ end_page (List.last (r2 :: rs) r2)).
    { clear IH Hadj Hr. revert r2 Hc Hwf.
      induction rs as [|r3 rs IHrs]; intros r2 Hc Hwf.
      - apply Forall_cons in Hwf as [[? _] _]. done.
      - destruct Hc as [Hadj Hc]. apply Forall_cons in Hwf as [[? _] Hwf].
        specialize (IHrs r3 Hc Hwf).
        change (List.last (r2 :: r3 :: rs) r2) with (List.last (r3 :: rs) r2).
        rewrite (last_cons_default r3 rs r2 r3). lia. }
    change (List.last (r :: r2 :: rs) r) with (List.last (r2 :: rs) r).
    rewrite (last_cons_default r2 rs r r2).
    unfold cover_count in *. simpl List.filter.
    change (List.filter (covers p) (r2 :: rs)) with
      (if covers p r2 then r2 :: List.filter (covers p) rs
       else List.filter (covers p) rs) in IH.
    unfold covers at 1.
    remember (end_page (List.last (r2 :: rs) r2)) as e_last eqn:Hel. clear Hel.
    destruct (start_page r <=? p) eqn:E1, (p <=? end_page r) eqn:E2; simpl;
      rewrite IH;
      destruct (start_page r2 <=? p) eqn:E3, (p <=? e_last) eqn:E4; simpl; try done;
      leb_to_Z; lia.
Qed.


(** ** From the recursive predicates to the indexed ones *)

Lemma chained_contiguous rs : chained rs → contiguous rs.
Proof.
  induction rs as [|r rs IH]; intros Hc i r1 r2 H1 H2; [done|].
  destruct rs as [|r' rs]; [by destruct i|].
  destruct Hc as [Hadj Hc].
  destruct i as [|i]; simpl in *.
  - by injection H1 as <-; injection H2 as <-.
  - by apply (IH Hc i).
Qed.

Lemma chained_after r rs x :
  chained (r :: rs) → Forall well_formed rs → x ∈ rs → end_page r < start_page x.
Proof.
  revert r. induction rs as [|r2 rs IH]; intros r Hc Hwf Hx;
    [by apply elem_of_nil in Hx|].
  destruct Hc as [Hadj Hc]. apply Forall_cons in Hwf as [[Hr2 _] Hwf].
  apply elem_of_cons in Hx as [->|Hx]; [lia|].
  specialize (IH r2 Hc Hwf Hx). lia.
Qed.

Lemma chained_sorted rs :
  chained rs → Forall well_formed rs → sorted_by_start rs.
Proof.
  induction rs as [|r rs IH]; intros Hc Hwf i j r1 r2 Hij H1 H2; [done|].
  pose proof (Forall_cons_1 _ _ _ Hwf) as [[Hr _] Hwf'].
  destruct j as [|j]; [lia|]. simpl in H2.
  destruct i as [|i]; simpl in H1.
  - injection H1 as <-.
    pose proof (chained_after r rs r2 Hc Hwf' (list_elem_of_lookup_2 _ _ _ H2)). lia.
  - apply (IH ltac:(by destruct rs as [|? ?]; [|destruct Hc]) Hwf' i j); [lia|done..].
Qed.

Lemma sorted_head_min b l x :
  StronglySorted pages_le (b :: l) → x ∈ b :: l → page b ≤ page x.
Proof.
  intros [_ Hb]%StronglySorted_inv [->|Hx]%elem_of_cons; [lia|].
  by apply (proj1 (Forall_forall _ _) Hb).
Qed.

Lemma last_snoc {A} (l : list A) x d : List.last (l ++ [x]) d = x.
Proof. apply last_last. Qed.


(** ** The invariant of the computed ranges *)

Lemma get_bookmark_ranges_sorted bookmarks total :
  sorted_by_start (get_bookmark_ranges bookmarks total).
Proof.
  rewrite get_bookmark_ranges_eq.
  apply chained_sorted.
  - apply ranges_from_chained, sort_by_page_sorted.
  - apply Forall_forall. intros r Hr. by eapply ranges_from_well_formed.
Qed.


Lemma sorted_sections_facts bookmarks :
  let l := sort_by_page (filter_main_sections bookmarks) in
  StronglySorted pages_le l ∧
  ∀ b, b ∈ l ↔ b ∈ bookmarks ∧ is_main_section b = true.
Proof.
  split; [apply sort_by_page_sorted|].
  intros b. rewrite sort_by_page_perm. apply filter_main_sections_elem.
Qed.

(** C2, as the specification states it, fails: with one canonical section
    that starts on page 5 of a 10-page document, the only range is 5..9 and
    pages 0..4 lie in no range. *)
Lemma late_start_leaves_pages_uncovered :
  get_bookmark_ranges late_start 10 = [mk_range "1. PROFILE" 5 9] ∧
  ¬ covers_document_once (get_bookmark_ranges late_start 10) 10.
Proof.
  split; [reflexivity|].
  intros (_ & _ & Hcov). specialize (Hcov 0 ltac:(lia)). discriminate Hcov.
Qed.

(** C2 (amended).  For every bookmark list and every page count, the ranges
    are strictly ascending by [start_page], contiguous and well formed;
    they contain exactly the pages from the first [start_page] to the last
    [end_page], each once, so no page is in two ranges.  When some
    canonical bookmark is on page 0 and every canonical bookmark lies on a
    page of the document, these are the pages 0 .. total_pages-1. *)
Theorem get_bookmark_ranges_invariant (bookmarks : list Bookmark) (total_pages : Z) :
  let rs := get_bookmark_ranges bookmarks total_pages in
  sorted_by_start rs ∧ contiguous rs ∧ Forall well_formed rs ∧
  (∀ p, (cover_count p rs ≤ 1)%nat) ∧
  (∀ first, head rs = Some first → ∀ p,
     cover_count p rs =
       if (start_page first <=? p) && (p <=? end_page (List.last rs first))
       then 1%nat else 0%nat) ∧
  ((∃ b, b ∈ bookmarks ∧ is_main_section b = true ∧ page b = 0) →
   (∀ b, b ∈ bookmarks → is_main_section b = true → 0 ≤ page b < total_pages) →
   covers_document_once rs total_pages ∧
   ∀ p, ¬ (0 ≤ p < total_pages) → cover_count p rs = 0%nat).
Proof.
  intros rs. subst rs. rewrite get_bookmark_ranges_eq.
  destruct (sorted_sections_facts bookmarks) as [Hs Hin].
  set (l := sort_by_page (filter_main_sections bookmarks)) in *.
  set (rs := ranges_from total_pages l).
  assert (Hwf : Forall well_formed rs).
  { apply Forall_forall. intros r Hr. by eapply ranges_from_well_formed. }
  pose proof (ranges_from_chained total_pages l Hs) as Hch. fold rs in Hch.
  pose proof (chained_sorted rs Hch Hwf) as Hsorted.
  pose proof (chained_contiguous rs Hch) as Hcont.
  assert (Hspan : ∀ first, head rs = Some first → ∀ p,
     cover_count p rs =
       if (start_page first <=? p) && (p <=? end_page (List.last rs first))
       then 1%nat else 0%nat).
  { intros first Hf p. pose proof (chained_cover_count p rs Hch Hwf) as Hc.
    destruct rs as [|r rs']; [done|]. by injection Hf as <-. }
  split_and!; try done.
  - intros p. pose proof (chained_cover_count p rs Hch Hwf) as Hc.
    destruct rs as [|r rs']; [rewrite Hc; lia|].
    rewrite Hc. destruct (_ && _); lia.
  - intros (b0 & Hb0 & Hm0 & Hp0) Hall.
    assert (Hb0l : b0 ∈ l) by (by apply Hin).
    destruct l as [|b l'] eqn:El; [by apply elem_of_nil in Hb0l|].
    assert (Hpages : Forall (λ b, page b < total_pages) (b :: l')).
    { apply Forall_forall. intros x Hx. apply Hin in Hx as [Hx Hm].
      by apply Hall. }
    destruct (ranges_from_last total_pages (b :: l') b ltac:(done) Hpages)
      as (r & rs' & Hrs & Hend & _).
    assert (Hb : page b = 0).
    { pose proof (sorted_head_min b l' b0 Hs Hb0l).
      assert (b ∈ b :: l') as [Hbin Hbm]%Hin by (apply elem_of_cons; by left).
      specialize (Hall b Hbin Hbm). lia. }
    destruct rs as [|first rest] eqn:Ers.
    { unfold rs in Ers. rewrite Hrs in Ers. by destruct rs'. }
    assert (Hstart : start_page first = 0).
    { unfold rs in Ers. rewrite (ranges_from_head _ _ _ _ _ Hs Ers). done. }
    assert (Hlast : end_page (List.last (first :: rest) first) = total_pages - 1).
    { rewrite <- Ers. unfold rs. rewrite Hrs, last_snoc. done. }
    specialize (Hspan first eq_refl).
    split; [split_and!; try done|]; intros p Hp; rewrite Hspan, Hstart, Hlast.
    + destruct (0 <=? p) eqn:E1, (p <=? total_pages - 1) eqn:E2; simpl; try done;
        leb_to_Z; lia.
    + destruct (0 <=? p) eqn:E1, (p <=? total_pages - 1) eqn:E2; simpl; try done;
        leb_to_Z; lia.
Qed.

Lemma get_bookmark_ranges_invariant_witness :
  covers_document_once (get_bookmark_ranges four_sections 40) 40.
Proof.
  apply (get_bookmark_ranges_invariant four_sections 40).
  - exists {| title := "1. PROFILE"; page := 0 |}.
    split; [apply elem_of_cons; by left | split; reflexivity].
  - intros b Hb _. unfold four_sections in Hb.
    repeat (apply elem_of_cons in Hb as [->|Hb]; [simpl; lia|]).
    by apply elem_of_nil in Hb.
Defined.

(** C4.  Four bookmarks with canonical titles on pages 0, 5, 12 and 30 of
    a 40-page document give exactly the ranges 0..4, 5..11, 12..29 and
    30..39, in that order, and their page counts add up to 40. *)
Theorem four_bookmarks_ranges (t1 t2 t3 t4 : string) :
  let bookmarks := [ {| title := t1; page := 0 |}; {| title := t2; page := 5 |};
                     {| title := t3; page := 12 |}; {| title := t4; page := 30 |} ] in
  Forall (λ b, is_main_section b = true) bookmarks →
  get_bookmark_ranges bookmarks 40
  = [ {| sec_title := t1; start_page := 0; end_page := 4; page_count := 5 |};
      {| sec_title := t2; start_page := 5; end_page := 11; page_count := 7 |};
      {| sec_title := t3; start_page := 12; end_page := 29; page_count := 18 |};
      {| sec_title := t4; start_page := 30; end_page := 39; page_count := 10 |} ]
  ∧ foldr Z.add 0 (page_count <$> get_bookmark_ranges bookmarks 40) = 40.
Proof.
  intros bookmarks Hmain.
  assert (Hf : filter_main_sections bookmarks = bookmarks).
  { unfold filter_main_sections.
    replace (List.filter is_main_section bookmarks) with bookmarks; [done|].
    symmetry. apply forallb_filter_id. apply forallb_forall.
    intros b Hb. by apply (proj1 (Forall_forall _ _) Hmain), list_elem_of_In. }
  assert (Hr : get_bookmark_ranges bookmarks 40
    = [ {| sec_title := t1; start_page := 0; end_page := 4; page_count := 5 |};
        {| sec_title := t2; start_page := 5; end_page := 11; page_count := 7 |};
        {| sec_title := t3; start_page := 12; end_page := 29; page_count := 18 |};
        {| sec_title := t4; start_page := 30; end_page := 39; page_count := 10 |} ]).
  { rewrite get_bookmark_ranges_eq, Hf. reflexivity. }
  rewrite Hr. split; reflexivity.
Qed.

Lemma four_bookmarks_ranges_witness :
  get_bookmark_ranges four_sections 40
  = [ mk_range "1. PROFILE" 0 4; mk_range "2. DIRECTORS" 5 11;
      mk_range "4. RATING" 12 29; mk_range "5. FINANCIALS" 30 39 ]
  ∧ foldr Z.add 0 (page_count <$> get_bookmark_ranges four_sections 40) = 40.
Proof.
  apply (four_bookmarks_ranges "1. PROFILE" "2. DIRECTORS" "4. RATING" "5. FINANCIALS").
  repeat constructor.
Defined.

End RangeFacts.

(* ===================================================================== *)
(** * The status-map reducer *)
(* ===================================================================== *)

Module ReducerFacts.
Import Reducers.

(** C10.  [None] is a left and a right identity of [merge_dicts]; in the
    merge of two dicts a key of the right one keeps the right value, any
    other key keeps the left value; and on dicts with disjoint key sets the
    merge commutes. *)
Theorem merge_dicts_laws (d : option (gmap string string)) (a b : gmap string string) :
  merge_dicts None d = d ∧
  merge_dicts d None = d ∧
  (∃ m, merge_dicts (Some a) (Some b) = Some m ∧
        ∀ k, m !! k = match b !! k with Some v => Some v | None => a !! k end) ∧
  (dom a ## dom b → merge_dicts (Some a) (Some b) = merge_dicts (Some b) (Some a)).
Proof.
  split_and!.
  - done.
  - by destruct d.
  - exists (b ∪ a). split; [done|]. intros k. rewrite lookup_union.
    destruct (b !! k), (a !! k); done.
  - intros Hdisj. simpl. f_equal. apply map_union_comm.
    by apply map_disjoint_dom.
Qed.

Lemma merge_dicts_laws_witness :
  merge_dicts (Some {[ "company_overview" := "completed" ]})
              (Some {[ "news_checks" := "failed" ]})
  = merge_dicts (Some {[ "news_checks" := "failed" ]})
                (Some {[ "company_overview" := "completed" ]}).
Proof.
  apply (merge_dicts_laws None {[ "company_overview" := "completed" ]}
           {[ "news_checks" := "failed" ]}).
  rewrite !dom_singleton_L. apply disjoint_singleton_l.
  rewrite elem_of_singleton. discriminate.
Defined.

End ReducerFacts.

(* ===================================================================== *)
(** * The outline parser *)
(* ===================================================================== *)

Module OutlineFacts.
Import PdfUtils OutlineSpec.

Lemma logs_recursion_error_app l1 l2 :
  logs_recursion_error (l1 ++ l2) = logs_recursion_error l1 || logs_recursion_error l2.
Proof. apply existsb_app. Qed.

(** The loop only looks at what the call returns on the nested lists of the
    outline. *)
Lemma parse_loop_ext objects call1 call2 outline : ∀ bs lg,
  (∀ r, Nested r ∈ outline → call1 (objects r) = call2 (objects r)) →
  parse_loop objects call1 outline bs lg = parse_loop objects call2 outline bs lg.
Proof.
  induction outline as [|it rest IH]; intros bs lg Hcalls; [done|].
  assert (Hrest : ∀ r, Nested r ∈ rest → call1 (objects r) = call2 (objects r)).
  { intros r Hr. apply Hcalls. by apply elem_of_cons; right. }
  destruct it as [t d|r]; simpl.
  - destruct (bind t _); by apply IH.
  - rewrite <- (Hcalls r) by (apply elem_of_cons; by left).
    destruct (call1 (objects r)) as [[bs' lg']|e]; [by apply IH | done].
Qed.

(** The log stays free of recursion errors when the nested calls return
    logs that are. *)
Lemma parse_loop_no_cut objects call outline : ∀ bs lg,
  logs_recursion_error lg = false →
  (∀ r, Nested r ∈ outline →
     ∃ bs' lg', call (objects r) = Ret (bs', lg') ∧ logs_recursion_error lg' = false) →
  logs_recursion_error (parse_loop objects call outline bs lg).2 = false.
Proof.
  induction outline as [|it rest IH]; intros bs lg Hlg Hcalls; [done|].
  assert (Hrest : ∀ r, Nested r ∈ rest →
     ∃ bs' lg', call (objects r) = Ret (bs', lg') ∧ logs_recursion_error lg' = false).
  { intros r Hr. apply Hcalls. by apply elem_of_cons; right. }
  destruct it as [t d|r]; simpl.
  - destruct (bind t _); apply IH; try done.
    rewrite logs_recursion_error_app, Hlg. done.
  - destruct (Hcalls r) as (bs' & lg' & -> & Hlg'); [apply elem_of_cons; by left|].
    apply IH; [|done]. by rewrite logs_recursion_error_app, Hlg, Hlg'.
Qed.

Lemma nesting_le_nested objects d outline r :
  nesting_le objects (S d) outline = true → Nested r ∈ outline →
  nesting_le objects d (objects r) = true.
Proof.
  intros H Hr. simpl in H. rewrite forallb_forall in H.
  apply (H (Nested r)). by apply list_elem_of_In.
Qed.

Lemma nesting_le_no_nested objects outline r :
  nesting_le objects 0 outline = true → Nested r ∈ outline → False.
Proof.
  intros H Hr. simpl in H. rewrite forallb_forall in H.
  specialize (H (Nested r) (proj1 (list_elem_of_In _ _) Hr)). discriminate.
Qed.

(** With more stack than the nesting depth, the result is the one obtained
    with [S d] nested calls, and nothing is cut. *)
Lemma parse_within_depth objects d : ∀ outline stack,
  nesting_le objects d outline = true → d < stack →
  parse_outline_recursive objects stack outline
  = parse_outline_recursive objects (S d) outline ∧
  recursion_cut objects stack outline = false.
Proof.
  induction d as [|d IH]; intros outline stack Hn Hlt;
    (destruct stack as [|stack]; [lia|]); unfold recursion_cut; simpl.
  - split.
    + f_equal. apply parse_loop_ext. intros r Hr.
      destruct (nesting_le_no_nested _ _ _ Hn Hr).
    + apply parse_loop_no_cut; [done|]. intros r Hr.
      destruct (nesting_le_no_nested _ _ _ Hn Hr).
  - assert (Hsub : ∀ r, Nested r ∈ outline →
        parse_outline_recursive objects stack (objects r)
        = parse_outline_recursive objects (S d) (objects r) ∧
        recursion_cut objects stack (objects r) = false).
    { intros r Hr. apply IH; [by eapply nesting_le_nested | lia]. }
    split.
    + f_equal. apply parse_loop_ext. intros r Hr. by apply Hsub.
    + apply parse_loop_no_cut; [done|]. intros r Hr.
      destruct (Hsub r Hr) as [_ Hcut]. unfold recursion_cut in Hcut.
      destruct (parse_outline_recursive objects stack (objects r)) as [[bs' lg']|e];
        [by exists bs', lg' | discriminate].
Qed.

Lemma self_ref_always_cut stack :
  recursion_cut self_ref_objects stack self_ref_outline = true.
Proof.
  induction stack as [|stack IH]; [reflexivity|].
  unfold recursion_cut in *. cbn [parse_outline_recursive].
  change self_ref_outline with [Nested 0] in *. cbn [parse_loop].
  change (self_ref_objects 0) with [Nested 0].
  destruct (parse_outline_recursive self_ref_objects stack [Nested 0])
    as [[bs lg]|e] eqn:E.
  - exact IH.
  - destruct stack; [|discriminate E].
    injection E as <-. vm_compute. reflexivity.
Qed.

(** C5, as the specification states it, fails: the parser has no ceiling of
    its own.  On a list that contains itself it goes down until the
    interpreter refuses the call, whatever stack it is given. *)
Lemma self_referential_outline_unbounded :
  ¬ ∃ D, depth_bounded_by D self_ref_objects self_ref_outline.
Proof.
  intros [D HD]. specialize (HD D (Nat.le_refl D)).
  rewrite self_ref_always_cut in HD. discriminate.
Qed.

(** C5 (amended).  The recursion of the parser is as deep as the outline is
    nested, with no ceiling and no record of visited lists.  On an outline
    nested at most [d] deep it returns within [d + 1] nested calls: no call
    is refused, and more stack does not change the result. *)
Theorem parse_outline_terminates_within_nesting
    (objects : nat → list item) (d : nat) (outline : list item) :
  nesting_le objects d outline = true →
  depth_bounded_by (S d) objects outline ∧
  (∃ bookmarks log,
     parse_outline_recursive objects (S d) outline = Ret (bookmarks, log) ∧
     logs_recursion_error log = false) ∧
  ∀ stack, d < stack →
    parse_outline_recursive objects stack outline
    = parse_outline_recursive objects (S d) outline.
Proof.
  intros Hn. split_and!.
  - intros stack Hs. apply (parse_within_depth objects d); [done | lia].
  - destruct (parse_within_depth objects d outline (S d) Hn ltac:(lia)) as [_ Hcut].
    unfold recursion_cut in Hcut. simpl in *.
    destruct (parse_loop _ _ _ _ _) as [bs lg]. by exists bs, lg.
  - intros stack Hs. by apply (parse_within_depth objects d).
Qed.

Lemma parse_outline_terminates_within_nesting_witness :
  parse_outline_recursive nested_objects 1000 nested_outline
  = parse_outline_recursive nested_objects 2 nested_outline.
Proof.
  apply (parse_outline_terminates_within_nesting nested_objects 1 nested_outline);
    [reflexivity | lia].
Defined.

(** The nested example flattens depth-first; titles are stripped and the
    entry without a destination is skipped with a warning. *)
Example parse_nested_outline :
  parse_outline_recursive nested_objects 2 nested_outline
  = Ret ([ {| title := "1. PROFILE"; page := 0 |};
           {| title := "1.1 History"; page := 2 |};
           {| title := "2. DIRECTORS"; page := 5 |} ],
         [ LogWarning "Could not parse bookmark item: no destination" ]).
Proof. reflexivity. Qed.

End OutlineFacts.

(* ===================================================================== *)
(** * The section extractor *)
(* ===================================================================== *)

Module ExtractFacts.
Import PdfUtils RangeSpec ExtractSpec.
Local Open Scope Z_scope.

(** The function, with the branches that return the original path merged. *)
Lemma extract_pdf_section_unfold env pdf_path kw :
  extract_pdf_section env pdf_path kw =
  Ret (if negb (PDF_PROCESSING_AVAILABLE env) then pdf_path
       else match get_pdf_page_count env pdf_path with
            | None => pdf_path
            | Some total =>
                if total =? 0 then pdf_path
                else default pdf_path
                       (extract_first_match env pdf_path kw
                          (get_bookmark_ranges (extract_pdf_bookmarks env pdf_path) total))
            end).
Proof.
  unfold extract_pdf_section.
  destruct (PDF_PROCESSING_AVAILABLE env); cbn [negb]; [|done].
  destruct (extract_pdf_bookmarks env pdf_path) as [|b bs] eqn:Eb.
  - destruct (get_pdf_page_count env pdf_path) as [total|]; [|done].
    by destruct (total =? 0).
  - destruct (get_pdf_page_count env pdf_path) as [total|]; [|done].
    destruct (total =? 0); [done|].
    destruct (get_bookmark_ranges (b :: bs) total) as [|r rs]; [done|].
    by destruct (extract_first_match env pdf_path kw (r :: rs)).
Qed.

Lemma extract_pdf_bookmarks_unreadable env pdf_path :
  raises (open_reader env pdf_path) → extract_pdf_bookmarks env pdf_path = [].
Proof. intros [e He]. unfold extract_pdf_bookmarks. by rewrite He. Qed.

Lemma extract_pdf_bookmarks_no_outline env pdf_path reader :
  open_reader env pdf_path = Ret reader →
  raises (outline reader) ∨ outline reader = Ret [] →
  extract_pdf_bookmarks env pdf_path = [].
Proof.
  intros Hr Ho. unfold extract_pdf_bookmarks. rewrite Hr. simpl.
  destruct Ho as [[e ->]| ->]; done.
Qed.

(** ** The loop over the ranges *)

Lemma extract_first_match_none env pdf_path kw ranges :
  (∀ r, r ∈ ranges → matches_keyword kw r = false) →
  extract_first_match env pdf_path kw ranges = None.
Proof.
  induction ranges as [|r rs IH]; intros H; [done|]. simpl.
  rewrite (H r) by (apply elem_of_cons; by left).
  apply IH. intros x Hx. apply H, elem_of_cons. by right.
Qed.

Lemma extract_first_match_at env pdf_path kw ranges : ∀ (i : nat) section,
  ranges !! i = Some section → matches_keyword kw section = true →
  (∀ (j : nat) r, (j < i)%nat → ranges !! j = Some r → matches_keyword kw r = false) →
  extract_first_match env pdf_path kw ranges = outcome_at env pdf_path section.
Proof.
  induction ranges as [|r rs IH]; intros i section Hi Hm Hbefore; [done|].
  destruct i as [|i]; simpl in Hi.
  - injection Hi as ->. simpl. by rewrite Hm.
  - simpl. rewrite (Hbefore 0%nat r) by (done || lia).
    apply (IH i); [done..|].
    intros j x Hj Hx. apply (Hbefore (S j)); [lia | done].
Qed.

Lemma first_index kw (ranges : list SectionRange) :
  (∀ r, r ∈ ranges → matches_keyword kw r = false) ∨
  ∃ (i : nat) section,
    ranges !! i = Some section ∧ matches_keyword kw section = true ∧
    ∀ (j : nat) r, (j < i)%nat → ranges !! j = Some r → matches_keyword kw r = false.
Proof.
  induction ranges as [|r rs IH].
  - left. intros r Hr. by apply elem_of_nil in Hr.
  - destruct (matches_keyword kw r) eqn:Hm.
    + right. exists 0%nat, r. split_and!; [done..|]. intros; lia.
    + destruct IH as [Hnone|(i & section & Hi & Hs & Hbefore)].
      * left. intros x [->|Hx]%elem_of_cons; [done | by apply Hnone].
      * right. exists (S i), section. split_and!; [done..|].
        intros [|j] x Hj Hx; simpl in Hx; [by injection Hx as <-|].
        apply (Hbefore j); [lia | done].
Qed.

Lemma first_index_least kw ranges (i : nat) section :
  sorted_by_start ranges →
  ranges !! i = Some section → matches_keyword kw section = true →
  (∀ (j : nat) r, (j < i)%nat → ranges !! j = Some r → matches_keyword kw r = false) →
  first_match kw ranges section.
Proof.
  intros Hsorted Hi Hm Hbefore. exists i. split_and!; [done..|].
  intros r Hr Hrm. apply list_elem_of_lookup in Hr as [j Hj].
  destruct (lt_eq_lt_dec j i) as [[Hlt| ->]|Hgt].
  - rewrite (Hbefore j r Hlt Hj) in Hrm. discriminate.
  - rewrite Hi in Hj. injection Hj as ->. lia.
  - pose proof (Hsorted i j section r Hgt Hi Hj). lia.
Qed.

Lemma first_match_unique kw ranges s1 s2 :
  first_match kw ranges s1 → first_match kw ranges s2 → s1 = s2.
Proof.
  intros (i & Hi & Hm1 & Hb1 & _) (j & Hj & Hm2 & Hb2 & _).
  destruct (lt_eq_lt_dec i j) as [[Hlt| ->]|Hgt].
  - rewrite (Hb2 i s1 Hlt Hi) in Hm1. discriminate.
  - rewrite Hi in Hj. by injection Hj.
  - rewrite (Hb1 j s2 Hgt Hj) in Hm2. discriminate.
Qed.

Lemma extract_first_match_of_first env pdf_path kw ranges section :
  first_match kw ranges section →
  extract_first_match env pdf_path kw ranges = outcome_at env pdf_path section.
Proof.
  intros (i & Hi & Hm & Hb & _). by apply (extract_first_match_at _ _ _ _ i).
Qed.

(** ** Failure gives back the original path *)

Lemma failure_returns_original env pdf_path kw :
  extraction_failure env pdf_path kw →
  extract_pdf_section env pdf_path kw = Ret pdf_path.
Proof.
  intros Hfail. rewrite extract_pdf_section_unfold. f_equal.
  destruct (PDF_PROCESSING_AVAILABLE env) eqn:Ea; simpl; [|done].
  destruct (get_pdf_page_count env pdf_path) as [total|] eqn:Ec; [|done].
  destruct (total =? 0) eqn:E0; [done|]. apply Z.eqb_neq in E0.
  assert (Hnil : extract_pdf_bookmarks env pdf_path = [] →
    default pdf_path (extract_first_match env pdf_path kw
      (get_bookmark_ranges (extract_pdf_bookmarks env pdf_path) total)) = pdf_path).
  { by intros ->. }
  destruct Hfail as [Hlib|Hopen|reader Hr Ho|Hb|Hcount|total' Ht Hranges
                    |total' Ht Hno|total' section Ht Hfirst Hpages].
  - congruence.
  - by apply Hnil, extract_pdf_bookmarks_unreadable.
  - by eapply Hnil, extract_pdf_bookmarks_no_outline.
  - by apply Hnil.
  - destruct Hcount as [?|?]; congruence.
  - assert (total' = total) as -> by congruence. by rewrite Hranges.
  - assert (total' = total) as -> by congruence.
    by rewrite extract_first_match_none.
  - assert (total' = total) as -> by congruence.
    rewrite (extract_first_match_of_first _ _ _ _ _ Hfirst). unfold outcome_at.
    by destruct Hpages as [-> | ->].
Qed.

(** ** Every run fails in one of the listed ways or extracts the first match *)

Lemma extract_pdf_section_cases env pdf_path kw :
  extraction_failure env pdf_path kw ∨
  ∃ result, extract_pdf_section env pdf_path kw = Ret result ∧
            extracted env pdf_path kw result.
Proof.
  destruct (PDF_PROCESSING_AVAILABLE env) eqn:Ea; [|by left; apply library_missing].
  destruct (get_pdf_page_count env pdf_path) as [total|] eqn:Ec;
    [|by left; apply no_page_count; left].
  destruct (decide (total = 0)) as [->|E0]; [by left; apply no_page_count; right|].
  set (ranges := get_bookmark_ranges (extract_pdf_bookmarks env pdf_path) total).
  destruct (first_index kw ranges) as [Hnone|(i & section & Hi & Hm & Hbefore)].
  { left. by apply (keyword_not_found _ _ _ total). }
  assert (Hfirst : first_match kw ranges section).
  { apply (first_index_least kw ranges i); [|done..].
    apply RangeFacts.get_bookmark_ranges_sorted. }
  destruct (extract_pages env pdf_path (pages_of section)) as [temp|] eqn:Ep;
    [|left; apply (pages_not_written _ _ _ total section); auto].
  destruct (is_empty temp) eqn:Ee.
  { left. apply (pages_not_written _ _ _ total section); auto.
    right. by destruct temp. }
  right. exists temp. split.
  - rewrite extract_pdf_section_unfold, Ea, Ec. simpl.
    destruct (total =? 0) eqn:E; [apply Z.eqb_eq in E; done|].
    fold ranges. rewrite (extract_first_match_of_first _ _ _ _ _ Hfirst).
    unfold outcome_at. by rewrite Ep, Ee.
  - exists total, section. split_and!; try done. by intros ->.
Qed.

(** C3.  [extract_pdf_section] never raises.  On each internal failure (no
    PDF library, unreadable document, no outline, no bookmark parsed, page
    count missing or zero, no canonical section, no title containing the
    keyword whatever the case of the letters, pages not written) it returns
    the path it was given; and every call either fails in one of these ways
    or returns the file made from the pages of the first range, in ascending
    order of [start_page], whose title contains the keyword. *)
Theorem extract_pdf_section_contract (env : Env) (pdf_path section_keyword : string) :
  ∃ result,
    extract_pdf_section env pdf_path section_keyword = Ret result ∧
    (extraction_failure env pdf_path section_keyword → result = pdf_path) ∧
    (extraction_failure env pdf_path section_keyword ∨
     extracted env pdf_path section_keyword result).
Proof.
  destruct (extract_pdf_section_cases env pdf_path section_keyword)
    as [Hfail|(result & Hres & Hext)].
  - exists pdf_path. split_and!; [by apply failure_returns_original | done | by left].
  - exists result. split_and!; [done| |by right].
    intros Hfail. apply failure_returns_original in Hfail. congruence.
Qed.

Lemma extract_pdf_section_contract_witness :
  extract_pdf_section broken_env "report.pdf" "RATING" = Ret "report.pdf".
Proof.
  destruct (extract_pdf_section_contract broken_env "report.pdf" "RATING")
    as (result & Hres & Hfail & _).
  rewrite Hres. f_equal. apply Hfail.
  apply unreadable_document. by eexists.
Defined.

(** On the sample document the keyword [directors] selects section 2, pages
    5 to 11, and the seven pages go to a new file. *)
Example extract_directors_section :
  extract_pdf_section sample_env "report.pdf" "directors"
  = Ret "outputs/temp_extract_1700000000_7pages.pdf".
Proof. vm_compute. reflexivity. Qed.

(** A title that is not canonical gives no range. *)
Example appendix_is_not_a_section :
  is_main_section {| title := "Appendix A"; page := 7 |} = false ∧
  is_main_section {| title := "3. Directors"; page := 7 |} = false ∧
  is_main_section {| title := " 3.  BOARD OF DIRECTORS "; page := 7 |} = true.
Proof. repeat split; reflexivity. Qed.

End ExtractFacts.

(* ===================================================================== *)
(** * The analysis nodes *)
(* ===================================================================== *)

Module NodeFacts.
Import Workflow WorkflowSpec.

Lemma node_fn_unfold n svc st :
  node_fn n svc st =
  if negb (_should_execute_node svc (node_id n)) then skipped_update (node_id n)
  else node_body n svc st.
Proof. by destruct n. Qed.

Lemma node_id_not_reserved n :
  node_id n ≠ "processing_status" ∧ node_id n ≠ "errors".
Proof. by destruct n. Qed.

Lemma answer_outcome id failure_msg (result : option string) :
  ran_outcome id
    match result with
    | Some r => if is_empty r then failed_update id [failure_msg]
                else completed_update id r
    | None => failed_update id [failure_msg]
    end.
Proof.
  destruct result as [[|c r]|]; try apply ran_failed.
  by apply ran_completed.
Qed.

Lemma search_node_body_outcome svc st id failure_msg prefix :
  ran_outcome id (search_node_body svc st id failure_msg prefix).
Proof.
  unfold search_node_body, catch, bind.
  destruct (get_prompt svc id _) as [prompt|e]; [|apply ran_failed].
  destruct (_perform_search_analysis svc _ prompt id) as [result|e];
    [|apply ran_failed].
  pose proof (answer_outcome id failure_msg result) as H.
  by destruct result as [[|c r]|].
Qed.

Lemma pdf_node_body_outcome svc st id key msg failure_msg prefix :
  ran_outcome id (pdf_node_body svc st id key msg failure_msg prefix).
Proof.
  unfold pdf_node_body, catch, bind.
  destruct (pdf_chunks st) as [chunks|]; [|apply ran_failed].
  destruct (pdf_processed st); cbn [negb]; [|apply ran_no_document].
  destruct (get_prompt svc id _) as [prompt|e]; [|apply ran_failed].
  destruct (analyze_pdf_from_path svc _ _ prompt) as [result|e];
    [|apply ran_failed].
  pose proof (answer_outcome id failure_msg result) as H.
  by destruct result as [[|c r]|].
Qed.

Lemma node_body_outcome n svc st : ran_outcome (node_id n) (node_body n svc st).
Proof.
  destruct n; first [apply search_node_body_outcome | apply pdf_node_body_outcome].
Qed.

Lemma node_fn_outcome n svc st : node_outcome (node_id n) (node_fn n svc st).
Proof.
  rewrite node_fn_unfold.
  destruct (negb _); [apply outcome_disabled | apply outcome_ran, node_body_outcome].
Qed.

(** What can be read in an update of each shape. *)
Lemma skipped_update_lookup id k :
  id ≠ "processing_status" →
  skipped_update id !! k =
    if decide (k = "processing_status") then Some (status id "skipped") else None.
Proof.
  intros _. unfold skipped_update. case_decide as Hk.
  - subst. apply lookup_singleton_eq.
  - by apply lookup_singleton_ne.
Qed.

Lemma ran_outcome_trace id d :
  id ≠ "processing_status" → id ≠ "errors" → ran_outcome id d →
  (∃ s, d !! "processing_status" = Some (status id s) ∧
        (s = "skipped" ∨ s = "completed" ∨ s = "failed") ∧
        (is_Some (d !! id) ↔ s = "completed") ∧
        (is_Some (d !! "errors") ↔ s ≠ "completed")) ∧
  (∀ v, d !! id = Some v → ∃ r, v = VStr r ∧ r ≠ "") ∧
  (∀ v, d !! "errors" = Some v → ∃ msg, v = VList [msg]) ∧
  (∀ k, is_Some (d !! k) → k = "processing_status" ∨ k = "errors" ∨ k = id).
Proof.
  intros Hps Herr [msg|r Hr|msg].
  - split_and!.
    + exists "skipped". split_and!.
      * by rewrite lookup_insert_ne, lookup_singleton_eq.
      * by left.
      * rewrite lookup_insert_ne, lookup_singleton_ne by done.
        split; [by intros [? ?] | done].
      * rewrite lookup_insert_eq. split; [done | by eexists].
    + intros v. by rewrite lookup_insert_ne, lookup_singleton_ne.
    + intros v. rewrite lookup_insert_eq. intros [= <-]. by eexists.
    + intros k [v Hk].
      destruct (decide (k = "errors")) as [->|?]; [by auto|].
      rewrite lookup_insert_ne in Hk by done.
      destruct (decide (k = "processing_status")) as [->|?]; [by auto|].
      by rewrite lookup_singleton_ne in Hk.
  - unfold completed_update. split_and!.
    + exists "completed". split_and!.
      * by rewrite lookup_insert_ne, lookup_singleton_eq.
      * by auto.
      * rewrite lookup_insert_eq. split; [done | by eexists].
      * rewrite lookup_insert_ne, lookup_singleton_ne by done.
        split; [by intros [? ?] | done].
    + intros v. rewrite lookup_insert_eq. intros [= <-]. by eexists.
    + intros v. by rewrite lookup_insert_ne, lookup_singleton_ne.
    + intros k [v Hk].
      destruct (decide (k = id)) as [->|?]; [by auto|].
      rewrite lookup_insert_ne in Hk by done.
      destruct (decide (k = "processing_status")) as [->|?]; [by auto|].
      by rewrite lookup_singleton_ne in Hk.
  - unfold failed_update. split_and!.
    + exists "failed". split_and!.
      * by rewrite lookup_insert_ne, lookup_singleton_eq.
      * by auto.
      * rewrite lookup_insert_ne, lookup_singleton_ne by done.
        split; [by intros [? ?] | done].
      * rewrite lookup_insert_eq. split; [done | by eexists].
    + intros v. by rewrite lookup_insert_ne, lookup_singleton_ne.
    + intros v. rewrite lookup_insert_eq. intros [= <-]. by eexists.
    + intros k [v Hk].
      destruct (decide (k = "errors")) as [->|?]; [by auto|].
      rewrite lookup_insert_ne in Hk by done.
      destruct (decide (k = "processing_status")) as [->|?]; [by auto|].
      by rewrite lookup_singleton_ne in Hk.
Qed.

(** ** Enablement *)

(** A node that the configuration reports as disabled returns exactly the
    update [{'processing_status': {node_id: 'skipped'}}]: its status is
    [skipped], there is no [errors] entry and no output slot is written. *)
Theorem disabled_node_is_skipped (n : node) (svc : Services) (st : MarketScanState) :
  PromptManager.is_node_enabled (prompts svc) (node_id n) = Ret false →
  node_fn n svc st = skipped_update (node_id n) ∧
  node_fn n svc st !! "processing_status" = Some (VDict {[ node_id n := "skipped" ]}) ∧
  node_fn n svc st !! "errors" = None ∧
  ∀ k, k ∈ output_slots → node_fn n svc st !! k = None.
Proof.
  intros Hoff.
  assert (Hfn : node_fn n svc st = skipped_update (node_id n)).
  { rewrite node_fn_unfold. unfold _should_execute_node. by rewrite Hoff. }
  rewrite Hfn. destruct (node_id_not_reserved n) as [Hps _].
  split_and!; [done|..].
  - by rewrite skipped_update_lookup.
  - by rewrite skipped_update_lookup.
  - intros k Hk. rewrite skipped_update_lookup by done.
    case_decide as E; [|done]. subst k.
    unfold output_slots, all_nodes in Hk. simpl in Hk.
    repeat (apply elem_of_cons in Hk as [Hk|Hk]; [discriminate Hk|]).
    by apply elem_of_nil in Hk.
Qed.

Lemma disabled_node_is_skipped_witness :
  _compliance_checks_node (quiet_services compliance_off (Ret None)) overview_only
  = {[ "processing_status" := VDict {[ "compliance_checks" := "skipped" ]} ]}.
Proof.
  apply (disabled_node_is_skipped ComplianceChecks
           (quiet_services compliance_off (Ret None)) overview_only).
  reflexivity.
Defined.

(** When the enablement lookup raises, the node is treated as enabled: it
    runs its body, and what it returns is not the update of a disabled
    node. *)
Theorem lookup_error_runs_node (n : node) (svc : Services) (st : MarketScanState)
    (e : exn) :
  PromptManager.is_node_enabled (prompts svc) (node_id n) = Raise e →
  _should_execute_node svc (node_id n) = true ∧
  node_fn n svc st = node_body n svc st ∧
  node_fn n svc st ≠ skipped_update (node_id n).
Proof.
  intros Hraise.
  assert (Hrun : _should_execute_node svc (node_id n) = true).
  { unfold _should_execute_node. by rewrite Hraise. }
  assert (Hfn : node_fn n svc st = node_body n svc st).
  { by rewrite node_fn_unfold, Hrun. }
  split_and!; [done..|].
  rewrite Hfn. intros Heq.
  destruct (node_id_not_reserved n) as [Hps Herr].
  destruct (ran_outcome_trace _ _ Hps Herr (node_body_outcome n svc st))
    as [(s & _ & _ & Hslot & Herrs) _].
  rewrite Heq in Hslot, Herrs.
  rewrite !skipped_update_lookup in Hslot, Herrs by done.
  destruct (decide (node_id n = "processing_status")) as [?|_]; [done|].
  destruct (decide ("errors" = "processing_status")) as [?|_]; [done|].
  destruct (decide (s = "completed")) as [Hs|Hs].
  - apply Hslot in Hs as [? ?]. done.
  - apply Herrs in Hs as [? ?]. done.
Qed.

Lemma lookup_error_runs_node_witness :
  _should_execute_node (quiet_services (Some ∅) (Ret None)) "news_checks" = true.
Proof.
  apply (lookup_error_runs_node NewsChecks (quiet_services (Some ∅) (Ret None))
           overview_only (Exn KeyError "Node 'news_checks' not found")).
  reflexivity.
Defined.

(** ** What a node returns *)

(** Every node returns its own status, one of [skipped], [completed] and
    [failed], under [processing_status]; it writes its output slot exactly
    when the status is [completed], and then with a non-empty text; a failed
    node carries an error and a completed one none; and the update has no key
    besides [processing_status], [errors] and the node's own slot. *)
Theorem node_update_shape (n : node) (svc : Services) (st : MarketScanState) :
  let d := node_fn n svc st in
  (∃ s, d !! "processing_status" = Some (VDict {[ node_id n := s ]}) ∧
        (s = "skipped" ∨ s = "completed" ∨ s = "failed") ∧
        (is_Some (d !! node_id n) ↔ s = "completed") ∧
        (s = "failed" → is_Some (d !! "errors")) ∧
        (s = "completed" → d !! "errors" = None)) ∧
  (∀ v, d !! node_id n = Some v → ∃ r, v = VStr r ∧ r ≠ "") ∧
  (∀ k, is_Some (d !! k) →
        k = "processing_status" ∨ k = "errors" ∨ k = node_id n) ∧
  (∀ m, m ≠ n → d !! node_id m = None).
Proof.
  intros d. destruct (node_id_not_reserved n) as [Hps Herr].
  pose proof (node_fn_outcome n svc st) as Hout. fold d in Hout. clearbody d.
  assert (Hkeys : (∃ s, d !! "processing_status" = Some (VDict {[ node_id n := s ]}) ∧
        (s = "skipped" ∨ s = "completed" ∨ s = "failed") ∧
        (is_Some (d !! node_id n) ↔ s = "completed") ∧
        (s = "failed" → is_Some (d !! "errors")) ∧
        (s = "completed" → d !! "errors" = None)) ∧
    (∀ v, d !! node_id n = Some v → ∃ r, v = VStr r ∧ r ≠ "") ∧
    (∀ k, is_Some (d !! k) →
        k = "processing_status" ∨ k = "errors" ∨ k = node_id n)).
  { destruct Hout as [|d' Hran].
    - split_and!.
      + exists "skipped". rewrite !skipped_update_lookup by done.
        destruct (decide (node_id n = "processing_status")) as [?|_]; [done|].
        split_and!; [done | by left | | done..].
        split; [by intros [? ?] | done].
      + intros v. rewrite skipped_update_lookup by done. by case_decide.
      + intros k. rewrite skipped_update_lookup by done.
        case_decide; [by left | by intros [? ?]].
    - destruct (ran_outcome_trace _ _ Hps Herr Hran)
        as [(s & Hst & Hs & Hslot & Herrs) (Hval & _ & Hdom)].
      split_and!; [|done..].
      exists s. split_and!; [done..| |].
      + intros ->. by apply Herrs.
      + intros ->. destruct (d' !! "errors") eqn:E; [|done].
        assert ("completed" ≠ "completed") as Hne by (apply Herrs; by eexists).
        done. }
  destruct Hkeys as (Hst & Hval & Hdom). split_and!; [done..|].
  intros m Hm. destruct (d !! node_id m) eqn:E; [|done].
  destruct (Hdom (node_id m)) as [H|[H|H]]; [by eexists|..].
  - by destruct (node_id_not_reserved m).
  - by destruct (node_id_not_reserved m).
  - destruct m, n; done.
Qed.

(** ** The nodes that read the document *)

(** The state [run] starts from has [pdf_chunks = None], and a failed PDF
    step does not set it.  A document node that runs on such a state fails
    with the [AttributeError] of [None.keys()], raised while its first log
    line is built; it does not reach the branch that would skip it. *)
Theorem document_node_without_chunks_fails (n : node) (svc : Services)
    (st : MarketScanState) :
  reads_document n = true →
  _should_execute_node svc (node_id n) = true →
  pdf_chunks st = None →
  node_fn n svc st =
    <[ "errors" := VList [error_prefix n +:+ "'NoneType' object has no attribute 'keys'"] ]>
    {[ "processing_status" := VDict {[ node_id n := "failed" ]} ]}.
Proof.
  intros Hdoc Hrun Hnone. rewrite node_fn_unfold, Hrun. cbn [negb].
  destruct n; try discriminate Hdoc;
    unfold node_body, pdf_node_body; rewrite Hnone; reflexivity.
Qed.

Lemma document_node_without_chunks_fails_witness :
  _credit_rating_node (quiet_services None (Ret None)) overview_only
  = <[ "errors" := VList ["Credit rating error: 'NoneType' object has no attribute 'keys'"] ]>
    {[ "processing_status" := VDict {[ "credit_rating" := "failed" ]} ]}.
Proof.
  apply (document_node_without_chunks_fails CreditRating
           (quiet_services None (Ret None)) overview_only); reflexivity.
Defined.

(** While [pdf_processed] is false a document node calls neither the prompt
    catalogue nor the document service: its update is the same whatever they
    would answer, and it is never [completed]. *)
Theorem document_node_needs_processed_pdf (n : node) (svc svc' : Services)
    (st : MarketScanState) :
  reads_document n = true →
  pdf_processed st = false →
  prompts svc = prompts svc' →
  node_fn n svc st = node_fn n svc' st ∧
  node_fn n svc st !! node_id n = None.
Proof.
  intros Hdoc Hproc Hcfg.
  assert (Hbody : node_body n svc st = node_body n svc' st ∧
                  node_body n svc st !! node_id n = None).
  { destruct n; try discriminate Hdoc;
      unfold node_body, pdf_node_body, catch, bind; rewrite Hproc;
      destruct (pdf_chunks st); split; reflexivity. }
  rewrite !node_fn_unfold. unfold _should_execute_node. rewrite <- Hcfg.
  destruct (negb _); [|done].
  split; [done|]. destruct (node_id_not_reserved n) as [Hps _].
  rewrite skipped_update_lookup by done. by case_decide.
Qed.

Lemma document_node_needs_processed_pdf_witness :
  _financials_node (quiet_services None (Ret None)) overview_only !! "financials" = None.
Proof.
  apply (document_node_needs_processed_pdf Financials
           (quiet_services None (Ret None)) (quiet_services None (Ret None))
           overview_only); reflexivity.
Defined.

(** The four search nodes read nothing of the state but the company name. *)
Theorem search_node_reads_only_the_name (n : node) (svc : Services)
    (st st' : MarketScanState) :
  reads_document n = false →
  company_name st = company_name st' →
  node_fn n svc st = node_fn n svc st'.
Proof.
  intros Hdoc Hname. rewrite !node_fn_unfold.
  destruct (negb _); [done|].
  destruct n; try discriminate Hdoc;
    unfold node_body, search_node_body; by rewrite Hname.
Qed.

Lemma search_node_reads_only_the_name_witness :
  _company_overview_node (quiet_services None (Ret None)) overview_only
  = _company_overview_node (quiet_services None (Ret None))
      (initial_state "Acme Ltd" (Some "report.pdf")).
Proof.
  apply (search_node_reads_only_the_name CompanyOverview); reflexivity.
Defined.

End NodeFacts.

(* ===================================================================== *)
(** * Strings *)
(* ===================================================================== *)

Module StringFacts.

Lemma append_nil_l (b : string) : "" +:+ b = b.
Proof. reflexivity. Qed.

Lemma append_cons x (a b : string) : String x a +:+ b = String x (a +:+ b).
Proof. reflexivity. Qed.

Lemma append_assoc (a b c : string) : (a +:+ b) +:+ c = a +:+ (b +:+ c).
Proof.
  induction a as [|x a IH]; [done|]. rewrite !append_cons. by f_equal.
Qed.

Lemma append_empty_r (a : string) : a +:+ "" = a.
Proof.
  induction a as [|x a IH]; [done|]. rewrite append_cons. by f_equal.
Qed.

Lemma is_empty_true s : is_empty s = true ↔ s = "".
Proof. by destruct s. Qed.

Lemma startswith_spec p s : startswith p s = true ↔ ∃ r, s = p +:+ r.
Proof.
  revert s. induction p as [|a p IH]; intros s; cbn [startswith].
  - split; [by exists s | done].
  - destruct s as [|b s]; [split; [done | by intros [r ?]]|].
    case_decide as E.
    + subst. rewrite IH. split; intros [r Hr]; exists r.
      * by rewrite append_cons, Hr.
      * rewrite append_cons in Hr. congruence.
    + split; [done | intros [r Hr]; rewrite append_cons in Hr; congruence].
Qed.

Lemma contains_spec n h : contains n h = true ↔ ∃ a b, h = a +:+ n +:+ b.
Proof.
  induction h as [|c h IH]; cbn [contains].
  - rewrite orb_false_r, startswith_spec. split.
    + intros [r Hr]. by exists "", r.
    + intros (a & b & Hab). destruct a; [by exists b|done].
  - rewrite orb_true_iff, startswith_spec, IH. split.
    + intros [[r Hr]|(a & b & Hab)]; [by exists "", r|].
      exists (String c a), b. by rewrite append_cons, Hab.
    + intros (a & b & Hab). destruct a as [|x a]; [left; by exists b|].
      right. exists a, b. rewrite append_cons in Hab. congruence.
Qed.

Lemma contains_empty h : contains "" h = true.
Proof. by destruct h. Qed.

Lemma lstrip_split s : ∃ lead, s = lead +:+ lstrip s ∧ lstrip lead = "".
Proof.
  induction s as [|c s (lead & Hs & Hl)]; [by exists ""|]. cbn [lstrip].
  destruct (is_space c) eqn:E.
  - exists (String c lead). rewrite append_cons, <- Hs. cbn [lstrip]. by rewrite E.
  - by exists "".
Qed.

Lemma rstrip_prefix s : ∃ tail, s = rstrip s +:+ tail.
Proof.
  induction s as [|c s [tail Hs]]; [by exists ""|]. cbn [rstrip].
  destruct (is_space c && is_empty (rstrip s)).
  - by eexists.
  - exists tail. by rewrite append_cons, <- Hs.
Qed.

Lemma rstrip_idemp s : rstrip (rstrip s) = rstrip s.
Proof.
  induction s as [|c s IH]; [done|]. cbn [rstrip].
  destruct (is_space c && is_empty (rstrip s)) eqn:E; [done|].
  cbn [rstrip]. by rewrite IH, E.
Qed.

Lemma lstrip_head s : lstrip s = "" ∨ ∃ c t, lstrip s = String c t ∧ is_space c = false.
Proof.
  induction s as [|c s IH]; [by left|]. cbn [lstrip].
  destruct (is_space c) eqn:E; [done|]. right. by exists c, s.
Qed.

(** [strip] leaves nothing more to strip. *)
Lemma strip_idemp s : strip (strip s) = strip s.
Proof.
  unfold strip. destruct (lstrip_head s) as [->|(c & t & -> & Hc)]; [done|].
  cbn [rstrip]. rewrite Hc. cbn [andb lstrip]. rewrite Hc.
  change (rstrip (String c (rstrip t))) with
    (if is_space c && is_empty (rstrip (rstrip t)) then ""
     else String c (rstrip (rstrip t))).
  by rewrite rstrip_idemp, Hc.
Qed.

Lemma upper_char_idemp c : upper_char (upper_char c) = upper_char c.
Proof. by destruct c as [[] [] [] [] [] [] [] []]. Qed.

Lemma upper_idemp s : upper (upper s) = upper s.
Proof.
  induction s as [|c s IH]; [done|]. cbn [upper]. by rewrite upper_char_idemp, IH.
Qed.

End StringFacts.

(* ===================================================================== *)
(** * The report writer and [run] *)
(* ===================================================================== *)

Module WriterFacts.
Import Workflow WorkflowSpec StringFacts.

Lemma append_nonempty_r (a b : string) : b ≠ "" → a +:+ b ≠ "".
Proof.
  intros Hb. destruct a as [|x a]; [done|]. by rewrite append_cons.
Qed.

Lemma lines_nonempty l ls : lines (l :: ls) ≠ "".
Proof.
  unfold lines. cbn [fold_right]. apply append_nonempty_r.
  unfold nl. by rewrite append_cons.
Qed.

Lemma markdown_report_nonempty svc name node_results :
  _create_consolidated_markdown_report svc name node_results ≠ "".
Proof.
  unfold _create_consolidated_markdown_report.
  apply append_nonempty_r, lines_nonempty.
Qed.

Lemma error_report_nonempty st : _generate_error_report st ≠ "".
Proof. unfold _generate_error_report. apply lines_nonempty. Qed.

(** ** The check for sufficient data *)

Lemma gate_closed st :
  foundational_count st = 0 ↔
  negb (truthy (company_overview st)) && negb (truthy (industry_overview st))
  && negb (truthy (promoters_directors st)) = true.
Proof.
  unfold foundational_count, populated.
  destruct (truthy (company_overview st)), (truthy (industry_overview st)),
    (truthy (promoters_directors st)); simpl; split; (done || lia).
Qed.

Lemma writer_gate_closed svc st :
  foundational_count st = 0 →
  _report_writer_node svc st = insufficient_data_update st.
Proof.
  intros H%gate_closed. unfold _report_writer_node. by rewrite H.
Qed.

(** Past that check, the writer is the prompt lookup, the scratch file, and
    the consolidation with its handler. *)
Lemma writer_gate_open svc st :
  foundational_count st ≠ 0 →
  _report_writer_node svc st =
  catch
    (bind (get_prompt svc "report_consolidator" (consolidator_variables st)) (λ prompt,
     bind (write_text_file svc (dummy_pdf_path_of st)
             "DUMMY PDF FOR API CALL - CONTENT IS PASSED IN PROMPT") (λ _,
       try_except (consolidate svc st prompt (dummy_pdf_path_of st))
         (λ _, bind (remove_if_exists svc (dummy_pdf_path_of st)) (λ _,
                 Ret (final_report_update (markdown_report_of svc st)))))))
    (λ e, error_report_update st ["Report consolidation error: " +:+ str e]).
Proof.
  intros H. unfold _report_writer_node.
  destruct (negb (truthy (company_overview st)) && negb (truthy (industry_overview st))
            && negb (truthy (promoters_directors st))) eqn:E; [|done].
  by apply gate_closed in E.
Qed.

(** The consolidation returns the LLM text or the concatenated report. *)
Lemma consolidate_returns svc st prompt dummy d :
  consolidate svc st prompt dummy = Ret d →
  (∃ t, llm_call svc st prompt = Ret (Some t) ∧ t ≠ "" ∧ d = final_report_update t) ∨
  (no_text (llm_call svc st prompt) ∧ d = final_report_update (markdown_report_of svc st)).
Proof.
  unfold consolidate, llm_call, bind.
  destruct (analyze_text_content svc _ prompt _ _) as [[[|c t]|]|e]; [..|done];
    destruct (remove_if_exists svc dummy); try done;
    destruct (make_report_dir svc); try done; cbn [truthy negb is_empty].
  - destruct (write_report_file svc _ _); [|done].
    intros [= <-]. right. split; [right; by left | done].
  - destruct (write_report_file svc _ (default "" _)); [|done].
    destruct (write_report_file svc _ _); [|done].
    intros [= <-]. left. by exists (String c t).
  - destruct (write_report_file svc _ _); [|done].
    intros [= <-]. right. split; [by left | done].
Qed.

Lemma writer_cases svc st :
  foundational_count st ≠ 0 →
  (∃ r, _report_writer_node svc st = final_report_update r ∧ r ≠ "") ∨
  (∃ e, _report_writer_node svc st =
        error_report_update st ["Report consolidation error: " +:+ str e]).
Proof.
  intros H. rewrite (writer_gate_open svc st H). unfold catch, bind, try_except.
  destruct (get_prompt svc _ _) as [prompt|e]; [|right; by exists e].
  destruct (write_text_file svc _ _) as [[]|e]; [|right; by exists e].
  destruct (consolidate svc st prompt _) as [d|e] eqn:Ec.
  - left. apply consolidate_returns in Ec as [(t & _ & Ht & ->)|[_ ->]].
    + by exists t.
    + eexists. split; [done|]. apply markdown_report_nonempty.
  - destruct (remove_if_exists svc _) as [[]|e']; [|right; by exists e'].
    left. eexists. split; [done|]. apply markdown_report_nonempty.
Qed.

(** The writer emits the insufficient-data error report exactly when none
    of [company_overview], [industry_overview] and [promoters_directors] is
    populated: with none it returns the error report and the error
    "Insufficient data to generate comprehensive report"; with one or more
    it never records that error. *)
Theorem writer_insufficient_data_gate (svc : Services) (st : MarketScanState) :
  (foundational_count st = 0 →
   _report_writer_node svc st =
     <[ "final_report" := VStr (_generate_error_report st) ]>
     {[ "errors" := VList ["Insufficient data to generate comprehensive report"] ]}) ∧
  (foundational_count st ≠ 0 →
   _report_writer_node svc st !! "errors"
   ≠ Some (VList ["Insufficient data to generate comprehensive report"])).
Proof.
  split; [apply writer_gate_closed|].
  intros H. destruct (writer_cases svc st H) as [(r & -> & _)|(e & ->)].
  - by unfold final_report_update.
  - unfold error_report_update.
    rewrite lookup_insert_ne by done. rewrite lookup_singleton_eq.
    intros [= Heq].
Qed.

(** The writer always sets [final_report], to a non-empty text, and its
    update has no key besides [final_report] and [errors]. *)
Theorem writer_always_reports (svc : Services) (st : MarketScanState) :
  ∃ r, _report_writer_node svc st !! "final_report" = Some (VStr r) ∧ r ≠ "" ∧
       ∀ k, is_Some (_report_writer_node svc st !! k) →
            k = "final_report" ∨ k = "errors".
Proof.
  assert (Herr : ∀ errs, ∃ r,
    error_report_update st errs !! "final_report" = Some (VStr r) ∧ r ≠ "" ∧
    ∀ k, is_Some (error_report_update st errs !! k) →
         k = "final_report" ∨ k = "errors").
  { intros errs. exists (_generate_error_report st). unfold error_report_update.
    split_and!; [apply lookup_insert_eq | apply error_report_nonempty |].
    intros k [v Hk].
    destruct (decide (k = "final_report")) as [->|?]; [by left|].
    rewrite lookup_insert_ne in Hk by done.
    destruct (decide (k = "errors")) as [->|?]; [by right|].
    by rewrite lookup_singleton_ne in Hk. }
  destruct (decide (foundational_count st = 0)) as [H0|H0].
  - rewrite (writer_gate_closed svc st H0). apply Herr.
  - destruct (writer_cases svc st H0) as [(r & -> & Hr)|(e & ->)]; [|apply Herr].
    exists r. unfold final_report_update.
    split_and!; [apply lookup_singleton_eq | done |].
    intros k [v Hk].
    destruct (decide (k = "final_report")) as [->|?]; [by left|].
    by rewrite lookup_singleton_ne in Hk.
Qed.

(** When the prompt lookup, the scratch file, the text-mode call with a
    non-empty answer and the saving of both report copies all work, the
    final report is the answer of the text-mode call. *)
Theorem writer_returns_llm_report (svc : Services) (st : MarketScanState)
    (prompt t : string) :
  foundational_count st ≠ 0 →
  get_prompt svc "report_consolidator" (consolidator_variables st) = Ret prompt →
  write_text_file svc (dummy_pdf_path_of st)
    "DUMMY PDF FOR API CALL - CONTENT IS PASSED IN PROMPT" = Ret () →
  llm_call svc st prompt = Ret (Some t) → t ≠ "" →
  remove_if_exists svc (dummy_pdf_path_of st) = Ret () →
  make_report_dir svc = Ret () →
  (∀ name content, write_report_file svc name content = Ret ()) →
  _report_writer_node svc st = {[ "final_report" := VStr t ]}.
Proof.
  intros H Hp Hw Hllm Ht Hrm Hdir Hsave.
  rewrite (writer_gate_open svc st H). unfold catch, bind, try_except.
  rewrite Hp, Hw. unfold consolidate, bind. unfold llm_call in Hllm.
  rewrite Hllm, Hrm, Hdir, !Hsave.
  destruct t as [|c t]; [done|]. reflexivity.
Qed.

Lemma writer_returns_llm_report_witness :
  _report_writer_node (quiet_services None (Ret (Some "REPORT"))) overview_only
  = {[ "final_report" := VStr "REPORT" ]}.
Proof.
  by apply (writer_returns_llm_report (quiet_services None (Ret (Some "REPORT")))
              overview_only "prompt for report_consolidator" "REPORT").
Defined.

(** With the prompt and the scratch file in order, a text-mode call that
    gives no text ([None], [''] or an exception) makes the concatenated
    report the final report, with no error recorded. *)
Theorem writer_falls_back_when_llm_silent (svc : Services) (st : MarketScanState)
    (prompt : string) :
  foundational_count st ≠ 0 →
  get_prompt svc "report_consolidator" (consolidator_variables st) = Ret prompt →
  write_text_file svc (dummy_pdf_path_of st)
    "DUMMY PDF FOR API CALL - CONTENT IS PASSED IN PROMPT" = Ret () →
  remove_if_exists svc (dummy_pdf_path_of st) = Ret () →
  no_text (llm_call svc st prompt) →
  _report_writer_node svc st
  = {[ "final_report" :=
         VStr (_create_consolidated_markdown_report svc (company_name st)
                 (node_results_of st)) ]}.
Proof.
  intros H Hp Hw Hrm Hsilent.
  rewrite (writer_gate_open svc st H). unfold catch, bind, try_except.
  rewrite Hp, Hw.
  destruct (consolidate svc st prompt _) as [d|e] eqn:Ec.
  - apply consolidate_returns in Ec as [(t & Ht & Hne & ->)|[_ ->]]; [|done].
    destruct Hsilent as [Hs|[Hs|[e Hs]]]; rewrite Hs in Ht; congruence.
  - by rewrite Hrm.
Qed.

Lemma writer_falls_back_when_llm_silent_witness :
  _report_writer_node (quiet_services None (Ret None)) overview_only
  = {[ "final_report" :=
         VStr (_create_consolidated_markdown_report (quiet_services None (Ret None))
                 "Acme Ltd" (node_results_of overview_only)) ]}.
Proof.
  apply (writer_falls_back_when_llm_silent (quiet_services None (Ret None))
           overview_only "prompt for report_consolidator"); try done.
  by left.
Defined.

(** A report that the text-mode call did produce is dropped when its copies
    cannot be saved: the exception of the save is caught by the handler of
    the call, and the concatenated report becomes the final report. *)
Theorem writer_drops_llm_report_when_saving_fails (svc : Services)
    (st : MarketScanState) (prompt : string) :
  foundational_count st ≠ 0 →
  get_prompt svc "report_consolidator" (consolidator_variables st) = Ret prompt →
  write_text_file svc (dummy_pdf_path_of st)
    "DUMMY PDF FOR API CALL - CONTENT IS PASSED IN PROMPT" = Ret () →
  remove_if_exists svc (dummy_pdf_path_of st) = Ret () →
  saving_fails svc st →
  _report_writer_node svc st
  = {[ "final_report" :=
         VStr (_create_consolidated_markdown_report svc (company_name st)
                 (node_results_of st)) ]}.
Proof.
  intros H Hp Hw Hrm Hsave.
  rewrite (writer_gate_open svc st H). unfold catch, bind, try_except.
  rewrite Hp, Hw.
  assert (Hraise : raises (consolidate svc st prompt (dummy_pdf_path_of st))).
  { unfold consolidate, bind.
    destruct (analyze_text_content svc _ prompt _ _) as [llm|e]; [|by exists e].
    rewrite Hrm.
    destruct Hsave as [[e He]|[Hdir Hw']]; [rewrite He; by exists e|].
    rewrite Hdir.
    destruct (truthy llm).
    - destruct (Hw' (replace_char " " "_" (company_name st) +:+ "_" +:+
                       strftime svc "%Y%m%d_%H%M%S" +:+ "_llm.md")
                    (default "" llm)) as [e He].
      rewrite He. by exists e.
    - destruct (Hw' (replace_char " " "_" (company_name st) +:+ "_" +:+
                       strftime svc "%Y%m%d_%H%M%S" +:+ "_concat.md")
                    (_create_consolidated_markdown_report svc (company_name st)
                       (node_results_of st))) as [e He].
      rewrite He. by exists e. }
  destruct Hraise as [e ->]. by rewrite Hrm.
Qed.

Lemma writer_drops_llm_report_when_saving_fails_witness :
  _report_writer_node (read_only_services (Ret (Some "REPORT"))) overview_only
  = {[ "final_report" :=
         VStr (_create_consolidated_markdown_report
                 (read_only_services (Ret (Some "REPORT")))
                 "Acme Ltd" (node_results_of overview_only)) ]}.
Proof.
  apply (writer_drops_llm_report_when_saving_fails
           (read_only_services (Ret (Some "REPORT")))
           overview_only "prompt for report_consolidator"); try done.
  right. split; [done|]. intros name content. by eexists.
Defined.

(** With data at hand, an exception of the prompt lookup or of the write of
    the scratch file still ends in the error report, with the error
    "Report consolidation error: ..." . *)
Theorem writer_reports_setup_failure (svc : Services) (st : MarketScanState)
    (e : exn) :
  foundational_count st ≠ 0 →
  get_prompt svc "report_consolidator" (consolidator_variables st) = Raise e ∨
  (returns (get_prompt svc "report_consolidator" (consolidator_variables st)) ∧
   write_text_file svc (dummy_pdf_path_of st)
     "DUMMY PDF FOR API CALL - CONTENT IS PASSED IN PROMPT" = Raise e) →
  _report_writer_node svc st
  = <[ "final_report" := VStr (_generate_error_report st) ]>
    {[ "errors" := VList ["Report consolidation error: " +:+ str e] ]}.
Proof.
  intros H Hfail.
  rewrite (writer_gate_open svc st H). unfold catch, bind.
  destruct Hfail as [-> | [[prompt ->] ->]]; done.
Qed.

Lemma writer_reports_setup_failure_witness :
  _report_writer_node no_prompt_services overview_only
  = <[ "final_report" := VStr (_generate_error_report overview_only) ]>
    {[ "errors" :=
         VList ["Report consolidation error: " +:+
                str (Exn KeyError "Node 'report_consolidator' not found")] ]}.
Proof.
  apply (writer_reports_setup_failure no_prompt_services overview_only); [done|].
  by left.
Defined.

(** ** [run] *)

(** [run] never raises.  Its result always has [success], [report],
    [errors], [company] and [processing_status].  When the graph returns a
    final state, [success] is true and the report, the errors, the statuses
    and the seven outputs are those of that state; when the graph raises,
    [success] is false, [report] is [None], [errors] holds only the text of
    the exception, the status map is empty and the seven output keys are
    absent. *)
Theorem run_result_shape (svc : Services) (name : string) (path : option string) :
  ∃ d, run svc name path = Ret d ∧
    d !! "company" = Some (VStr name) ∧
    match invoke svc (initial_state name path) with
    | Ret final =>
        d !! "success" = Some (VBool true) ∧
        d !! "report" = Some (of_opt (final_report final)) ∧
        d !! "errors" = Some (VList (errors final)) ∧
        d !! "processing_status" = Some (VDict (processing_status final)) ∧
        ∀ n, d !! node_id n = Some (of_opt (slot n final))
    | Raise e =>
        d !! "success" = Some (VBool false) ∧
        d !! "report" = Some VNone ∧
        d !! "errors" = Some (VList [str e]) ∧
        d !! "processing_status" = Some (VDict ∅) ∧
        ∀ n, d !! node_id n = None
    end.
Proof.
  unfold run, try_except, bind.
  destruct (invoke svc (initial_state name path)) as [final|e].
  - eexists. split; [done|]. split_and!; try reflexivity.
    intros n. by destruct n.
  - eexists. split; [done|]. split_and!; try reflexivity.
    intros n. by destruct n.
Qed.

End WriterFacts.

(* ===================================================================== *)
(** * The concatenated report *)
(* ===================================================================== *)

Module ReportFacts.
Import Workflow WorkflowSpec StringFacts.

Lemma add_section_append (node_results : gmap string (option string)) acc section :
  add_section node_results acc section = acc +:+ section_block node_results section.
Proof.
  destruct section as [key title]. unfold section_block, add_section.
  destruct (node_results !! key) as [[content|]|]; [|done..].
  destruct (is_empty content); done.
Qed.

Lemma fold_add_section (node_results : gmap string (option string)) secs : ∀ acc,
  fold_left (add_section node_results) secs acc
  = acc +:+ concat_all (section_block node_results <$> secs).
Proof.
  induction secs as [|sec secs IH]; intros acc; cbn [fold_left].
  - by rewrite append_empty_r.
  - rewrite IH, add_section_append, append_assoc. done.
Qed.

Lemma section_block_placeholder (node_results : gmap string (option string)) key title :
  absent_or_empty (node_results !! key) →
  section_block node_results (key, title) = placeholder title.
Proof.
  unfold section_block, add_section. by intros [-> | [-> | ->]].
Qed.

Lemma section_block_content (node_results : gmap string (option string)) key title content :
  node_results !! key = Some (Some content) → content ≠ "" →
  section_block node_results (key, title) =
    (if negb (startswith ("## " +:+ title) (strip content))
     then "## " +:+ title +:+ nl +:+ nl +:+ content
     else content) +:+ section_rule.
Proof.
  intros Hk Hne. unfold section_block, add_section. rewrite Hk.
  by destruct content.
Qed.

Lemma section_block_cases (node_results : gmap string (option string)) (key : string) :
  (absent_or_empty (node_results !! key)) ∨
  (∃ content, node_results !! key = Some (Some content) ∧ content ≠ "").
Proof.
  unfold absent_or_empty.
  destruct (node_results !! key) as [[[|c content]|]|].
  - left. right. by right.
  - right. by eexists.
  - left. right. by left.
  - left. by left.
Qed.

(** The concatenated report is the header, seven blocks in the fixed order
    of the section list, and the footer.  The block of a section ends with
    the rule, and begins, after leading whitespace at most, with ["## "] and
    the fixed title of the section; it is the placeholder "No data available
    for this section." when the stored output is absent, [None] or empty, and
    it contains the stored output otherwise. *)
Theorem markdown_report_structure (svc : Services) (name : string)
    (node_results : gmap string (option string)) :
  _create_consolidated_markdown_report svc name node_results
  = report_header svc name +:+
    concat_all (section_block node_results <$> sections) +:+ report_footer svc ∧
  sections.*1 = output_slots ∧
  sections.*2 = [ "1. Company & Business Overview"; "2. Industry Overview";
                  "3. Promoters and Board of Directors"; "4. Credit Rating History";
                  "5. Financial Performance"; "6. Compliance & Due Diligence";
                  "7. News & Media Analysis" ] ∧
  ∀ key title,
    let block := section_block node_results (key, title) in
    begins_after_space ("## " +:+ title) block ∧
    ends_with (nl +:+ nl +:+ "---" +:+ nl +:+ nl) block ∧
    (absent_or_empty (node_results !! key) →
     block = "## " +:+ title +:+ nl +:+ nl +:+
             "*No data available for this section.*" +:+ nl +:+ nl +:+ "---" +:+ nl +:+ nl) ∧
    (∀ content, node_results !! key = Some (Some content) → content ≠ "" →
       has_substring content block).
Proof.
  split_and!; [|done|done|].
  { unfold _create_consolidated_markdown_report.
    by rewrite fold_add_section, append_assoc. }
  intros key title block. subst block.
  destruct (section_block_cases node_results key)
    as [Habs|(content & Hk & Hne)].
  - rewrite (section_block_placeholder _ _ _ Habs). unfold placeholder.
    split_and!.
    + exists "", (nl +:+ nl +:+ "*No data available for this section.*" +:+ section_rule).
      split; [|done]. by rewrite append_nil_l, append_assoc.
    + exists ("## " +:+ title +:+ nl +:+ nl +:+ "*No data available for this section.*").
      by rewrite !append_assoc.
    + done.
    + intros content Hk. destruct Habs as [H|[H|H]]; rewrite H in Hk; [done..|].
      by injection Hk as <-.
  - rewrite (section_block_content _ _ _ _ Hk Hne).
    split_and!.
    + destruct (startswith ("## " +:+ title) (strip content)) eqn:E; cbn [negb].
      * apply startswith_spec in E as [r Hr].
        destruct (lstrip_split content) as (lead & Hc & Hlead).
        destruct (rstrip_prefix (lstrip content)) as [tail Ht].
        fold (strip content) in Ht. rewrite Hr in Ht.
        exists lead, (r +:+ tail +:+ section_rule). split; [|done].
        rewrite Hc at 1. rewrite Ht. by rewrite !append_assoc.
      * exists "", (nl +:+ nl +:+ content +:+ section_rule). split; [|done].
        by rewrite append_nil_l, !append_assoc.
    + by eexists.
    + intros Habs. destruct Habs as [H|[H|H]]; rewrite H in Hk; [done..|].
      by injection Hk as <-.
    + intros content' Hk'. rewrite Hk in Hk'. injection Hk' as <-. intros _.
      destruct (negb _).
      * exists ("## " +:+ title +:+ nl +:+ nl), section_rule.
        by rewrite !append_assoc.
      * exists "", section_rule. by rewrite append_nil_l.
Qed.

(** A stored output that already begins with the header of its section is
    taken as it is: the header is not written a second time. *)
Theorem markdown_report_keeps_existing_header (node_results : gmap string (option string))
    (key title body : string) :
  node_results !! key = Some (Some ("## " +:+ title +:+ body)) →
  startswith ("## " +:+ title) (strip ("## " +:+ title +:+ body)) = true →
  section_block node_results (key, title)
  = "## " +:+ title +:+ body +:+ nl +:+ nl +:+ "---" +:+ nl +:+ nl.
Proof.
  intros Hk Hs.
  rewrite (section_block_content _ _ _ _ Hk) by (by rewrite append_cons).
  rewrite Hs. cbn [negb]. unfold section_rule. by rewrite !append_assoc.
Qed.

Lemma markdown_report_keeps_existing_header_witness :
  section_block {[ "financials" := Some "## 5. Financial Performance: steady" ]}
    ("financials", "5. Financial Performance")
  = "## 5. Financial Performance: steady" +:+ nl +:+ nl +:+ "---" +:+ nl +:+ nl.
Proof.
  apply (markdown_report_keeps_existing_header
           {[ "financials" := Some "## 5. Financial Performance: steady" ]}
           "financials" "5. Financial Performance" ": steady"); reflexivity.
Defined.

End ReportFacts.

(* ===================================================================== *)
(** * More on the bookmarks and their ranges *)
(* ===================================================================== *)

Module BookmarkFacts.
Import PdfUtils RangeSpec.
Local Open Scope Z_scope.

Lemma insert_by_page_select p b l :
  List.filter (λ x, page x =? p) (insert_by_page b l)
  = List.filter (λ x, page x =? p) (b :: l).
Proof.
  induction l as [|c l IH]; [done|]. cbn [insert_by_page].
  destruct (page b <=? page c) eqn:E; [done|]. apply Z.leb_gt in E.
  cbn [List.filter] in *. rewrite IH.
  destruct (page c =? p) eqn:Ec, (page b =? p) eqn:Eb; try done.
  apply Z.eqb_eq in Ec, Eb. lia.
Qed.

Lemma sort_by_page_select p l :
  List.filter (λ x, page x =? p) (sort_by_page l) = List.filter (λ x, page x =? p) l.
Proof.
  induction l as [|b l IH]; [done|]. cbn [sort_by_page].
  rewrite insert_by_page_select. cbn [List.filter]. by rewrite IH.
Qed.

Lemma sort_by_page_fixpoint l :
  StronglySorted pages_le l → sort_by_page l = l.
Proof.
  induction 1 as [|b l Hl IH Hb]; [done|]. cbn [sort_by_page]. rewrite IH.
  destruct l as [|c l]; [done|]. cbn [insert_by_page].
  apply Forall_cons in Hb as [Hbc _]. unfold pages_le in Hbc.
  by rewrite (proj2 (Z.leb_le _ _) Hbc).
Qed.

(** [filter_main_sections] keeps exactly the bookmarks whose title matches
    the pattern, orders them by page, and keeps bookmarks of the same page
    in the order of the outline; so the [sorted] call that
    [get_bookmark_ranges] makes on the result changes nothing. *)
Theorem filter_main_sections_stable (bookmarks : list Bookmark) :
  filter_main_sections bookmarks ≡ₚ List.filter is_main_section bookmarks ∧
  StronglySorted (λ a b, page a ≤ page b) (filter_main_sections bookmarks) ∧
  (∀ p, List.filter (λ x, page x =? p) (filter_main_sections bookmarks)
        = List.filter (λ x, page x =? p) (List.filter is_main_section bookmarks)) ∧
  sort_by_page (filter_main_sections bookmarks) = filter_main_sections bookmarks.
Proof.
  unfold filter_main_sections. split_and!.
  - apply RangeFacts.sort_by_page_perm.
  - apply RangeFacts.sort_by_page_sorted.
  - intros p. apply sort_by_page_select.
  - apply sort_by_page_fixpoint, RangeFacts.sort_by_page_sorted.
Qed.

Lemma ranges_from_origin total l r :
  r ∈ ranges_from total l →
  ∃ b, b ∈ l ∧ sec_title r = title b ∧ start_page r = page b ∧
       (end_page r = total - 1 ∨ ∃ b', b' ∈ l ∧ end_page r = page b' - 1).
Proof.
  induction l as [|b l IH]; cbn [ranges_from]; [by intros ?%elem_of_nil|].
  assert (Hrest : r ∈ ranges_from total l →
    ∃ b0, b0 ∈ b :: l ∧ sec_title r = title b0 ∧ start_page r = page b0 ∧
       (end_page r = total - 1 ∨ ∃ b', b' ∈ b :: l ∧ end_page r = page b' - 1)).
  { intros (b0 & Hb0 & Ht & Hs & He)%IH. exists b0.
    split_and!; [by apply elem_of_cons; right | done..|].
    destruct He as [He|(b' & Hb' & He)]; [by left|].
    right. exists b'. split; [by apply elem_of_cons; right | done]. }
  destruct l as [|c l].
  - destruct (total - 1 >=? page b); [|exact Hrest].
    intros [->|Hr]%elem_of_cons; [|by apply Hrest].
    exists b. split_and!; [by apply elem_of_cons; left | done..| by left].
  - destruct (page c - 1 >=? page b); [|exact Hrest].
    intros [->|Hr]%elem_of_cons; [|by apply Hrest].
    exists b. split_and!; [by apply elem_of_cons; left | done..|].
    right. exists c. split; [|done].
    apply elem_of_cons. right. by apply elem_of_cons; left.
Qed.

Lemma ranges_from_length total l :
  (length (ranges_from total l) ≤ length l)%nat.
Proof.
  induction l as [|b l IH]; [done|]. cbn [ranges_from].
  destruct (_ >=? page b); cbn [length]; lia.
Qed.

(** Every range comes from a canonical bookmark: it has the title and the
    page of a bookmark of the input whose title matches the pattern, and it
    ends on the last page of the document or on the page before another
    canonical bookmark.  There are at most as many ranges as canonical
    bookmarks; without a canonical bookmark there is none. *)
Theorem ranges_come_from_canonical_bookmarks (bookmarks : list Bookmark)
    (total_pages : Z) :
  (∀ r, r ∈ get_bookmark_ranges bookmarks total_pages →
     ∃ b, b ∈ bookmarks ∧ is_main_section b = true ∧
          sec_title r = title b ∧ start_page r = page b ∧
          (end_page r = total_pages - 1 ∨
           ∃ b', b' ∈ bookmarks ∧ is_main_section b' = true ∧
                 end_page r = page b' - 1)) ∧
  (length (get_bookmark_ranges bookmarks total_pages)
   ≤ length (List.filter is_main_section bookmarks))%nat ∧
  ((∀ b, b ∈ bookmarks → is_main_section b = false) →
   get_bookmark_ranges bookmarks total_pages = []).
Proof.
  rewrite RangeFacts.get_bookmark_ranges_eq.
  assert (Hin : ∀ b, b ∈ sort_by_page (filter_main_sections bookmarks) →
                     b ∈ bookmarks ∧ is_main_section b = true).
  { intros b. rewrite RangeFacts.sort_by_page_perm.
    apply RangeFacts.filter_main_sections_elem. }
  assert (Hlen : (length (ranges_from total_pages
                            (sort_by_page (filter_main_sections bookmarks)))
                  ≤ length (List.filter is_main_section bookmarks))%nat).
  { etrans; [apply ranges_from_length|].
    unfold filter_main_sections.
    by rewrite !RangeFacts.sort_by_page_perm. }
  split_and!; [|done|].
  - intros r (b & Hb & Ht & Hs & He)%ranges_from_origin.
    destruct (Hin b Hb) as [Hbin Hbm].
    exists b. split_and!; [done..|].
    destruct He as [He|(b' & Hb' & He)]; [by left|].
    destruct (Hin b' Hb') as [? ?]. right. by exists b'.
  - intros Hnone.
    assert (List.filter is_main_section bookmarks = []) as Hnil.
    { destruct (List.filter is_main_section bookmarks) as [|b l] eqn:E; [done|].
      assert (In b (List.filter is_main_section bookmarks)) as Hb
        by (rewrite E; by left).
      apply filter_In in Hb as [Hb Hm].
      rewrite (Hnone b) in Hm; [done | by apply list_elem_of_In]. }
    rewrite Hnil in Hlen.
    destruct (ranges_from total_pages _); [done | simpl in Hlen; lia].
Qed.

End BookmarkFacts.

(* ===================================================================== *)
(** * Reading the document *)
(* ===================================================================== *)

Module DocumentFacts.
Import PdfUtils RangeSpec ExtractSpec StringFacts.
Local Open Scope Z_scope.

(** ** The keyword *)

Lemma extract_first_match_upper env pdf_path kw kw' ranges :
  upper kw = upper kw' →
  extract_first_match env pdf_path kw ranges
  = extract_first_match env pdf_path kw' ranges.
Proof.
  intros Hu. induction ranges as [|r rs IH]; [done|]. cbn [extract_first_match].
  unfold matches_keyword. by rewrite Hu, IH.
Qed.

(** The case of the letters of the keyword does not matter: two keywords
    with the same upper-case form select the same section. *)
Theorem keyword_case_is_ignored (env : Env) (pdf_path kw kw' : string) :
  upper kw = upper kw' →
  extract_pdf_section env pdf_path kw = extract_pdf_section env pdf_path kw'.
Proof.
  intros Hu. rewrite !ExtractFacts.extract_pdf_section_unfold.
  destruct (negb _); [done|].
  destruct (get_pdf_page_count env pdf_path) as [total|]; [|done].
  destruct (total =? 0); [done|].
  by rewrite (extract_first_match_upper _ _ kw kw').
Qed.

Lemma keyword_case_is_ignored_witness :
  extract_pdf_section sample_env "report.pdf" "Rating"
  = extract_pdf_section sample_env "report.pdf" "RATING".
Proof.
  by apply (keyword_case_is_ignored sample_env "report.pdf" "Rating" "RATING").
Defined.

(** ** The bookmarks read from the outline *)

Lemma parse_loop_Forall (P : Bookmark → Prop) objects call outline : ∀ bs lg,
  Forall P bs →
  (∀ r bs' lg', call (objects r) = Ret (bs', lg') → Forall P bs') →
  (∀ ttl page_num, P {| title := strip ttl; page := page_num |}) →
  Forall P (parse_loop objects call outline bs lg).1.
Proof.
  induction outline as [|it rest IH]; intros bs lg Hbs Hcall Hleaf; [done|].
  destruct it as [t d|r]; cbn [parse_loop].
  - destruct t as [ttl|e]; [destruct d as [page_num|e]|]; cbn [bind];
      apply IH; try done.
    apply Forall_app. split; [done|]. by constructor.
  - destruct (call (objects r)) as [[bs' lg']|e] eqn:E; [|done].
    apply IH; try done. apply Forall_app. split; [done|]. by eapply Hcall.
Qed.

Lemma parse_outline_Forall (P : Bookmark → Prop) objects stack : ∀ outline bs lg,
  (∀ ttl page_num, P {| title := strip ttl; page := page_num |}) →
  parse_outline_recursive objects stack outline = Ret (bs, lg) → Forall P bs.
Proof.
  induction stack as [|stack IH]; intros outline bs lg Hleaf; [done|].
  cbn [parse_outline_recursive]. intros [= Heq].
  assert (Hall : Forall P
    (parse_loop objects (parse_outline_recursive objects stack) outline [] []).1).
  { apply parse_loop_Forall; [done| |done].
    intros r bs' lg' Hr. by eapply IH. }
  by rewrite Heq in Hall.
Qed.

(** Every bookmark that [extract_pdf_bookmarks] returns has a title without
    leading or trailing whitespace; the [strip] that [filter_main_sections]
    applies again changes nothing, and the bookmark is a main section exactly
    when its title as it stands matches the pattern. *)
Theorem bookmark_titles_are_stripped (env : Env) (pdf_path : string) (b : Bookmark) :
  b ∈ extract_pdf_bookmarks env pdf_path →
  strip (title b) = title b ∧
  is_main_section b = re_match_anchored main_section_re (title b).
Proof.
  intros Hb.
  assert (Hs : strip (title b) = title b).
  { revert Hb. unfold extract_pdf_bookmarks, catch, bind.
    destruct (open_reader env pdf_path) as [reader|e]; [|by intros ?%elem_of_nil].
    destruct (outline reader) as [[|it o]|e]; [by intros ?%elem_of_nil| |by intros ?%elem_of_nil].
    destruct (parse_outline_recursive (objects reader) (stack_left env) (it :: o))
      as [[bs lg]|e] eqn:E; [|by intros ?%elem_of_nil].
    cbn [fst]. intros Hb.
    assert (Forall (λ b, strip (title b) = title b) bs) as Hall.
    { eapply parse_outline_Forall; [|exact E].
      intros ttl page_num. apply strip_idemp. }
    by apply (proj1 (Forall_forall _ _) Hall). }
  split; [done|]. unfold is_main_section. by rewrite Hs.
Qed.

Lemma bookmark_titles_are_stripped_witness :
  strip "2. DIRECTORS" = "2. DIRECTORS" ∧
  is_main_section {| title := "2. DIRECTORS"; page := 5 |}
  = re_match_anchored main_section_re "2. DIRECTORS".
Proof.
  apply (bookmark_titles_are_stripped sample_env "report.pdf"
           {| title := "2. DIRECTORS"; page := 5 |}).
  vm_compute. apply elem_of_cons. right. apply elem_of_cons. by left.
Defined.

(** The log does not influence the bookmarks. *)
Lemma parse_loop_log_irrelevant objects call outline : ∀ bs lg lg',
  (parse_loop objects call outline bs lg).1 = (parse_loop objects call outline bs lg').1.
Proof.
  induction outline as [|it rest IH]; intros bs lg lg'; [done|].
  destruct it as [t d|r]; cbn [parse_loop].
  - destruct (bind t _); apply IH.
  - destruct (call (objects r)) as [[bs' lg'']|e]; [apply IH | done].
Qed.

Lemma parse_loop_skips_bad_leaf objects call t d before after : ∀ bs lg,
  leaf_fails t d →
  (parse_loop objects call (before ++ Leaf t d :: after) bs lg).1
  = (parse_loop objects call (before ++ after) bs lg).1.
Proof.
  intros bs lg Hfail. revert bs lg.
  induction before as [|it rest IH]; intros bs lg.
  - cbn [app parse_loop].
    assert (∃ e, bind t (λ ttl, bind d (λ page_num,
              Ret {| title := strip ttl; page := page_num |})) = Raise e) as [e ->].
    { destruct Hfail as [[e ->]|[e ->]]; [by exists e|].
      destruct t as [ttl|e']; [by exists e | by exists e']. }
    apply parse_loop_log_irrelevant.
  - cbn [app]. destruct it as [t' d'|r]; cbn [parse_loop].
    + destruct (bind t' _); apply IH.
    + destruct (call (objects r)) as [[bs' lg'']|e]; [apply IH | done].
Qed.

(** An entry whose title or destination cannot be read is left out and the
    parse goes on: the bookmarks are those of the outline without that
    entry. *)
Theorem unreadable_entry_is_left_out (objects : nat → list item) (stack : nat)
    (t : res string) (d : res Z) (before after : list item) :
  leaf_fails t d →
  ∃ bookmarks log log',
    parse_outline_recursive objects (S stack) (before ++ Leaf t d :: after)
      = Ret (bookmarks, log) ∧
    parse_outline_recursive objects (S stack) (before ++ after)
      = Ret (bookmarks, log').
Proof.
  intros Hfail. cbn [parse_outline_recursive].
  pose proof (parse_loop_skips_bad_leaf objects
                (parse_outline_recursive objects stack) t d before after [] [] Hfail)
    as Heq.
  destruct (parse_loop _ _ (before ++ Leaf t d :: after) _ _) as [bs lg].
  destruct (parse_loop _ _ (before ++ after) _ _) as [bs' lg'].
  cbn [fst] in Heq. subst bs'. by exists bs, lg, lg'.
Qed.

Lemma unreadable_entry_is_left_out_witness :
  ∃ bookmarks log log',
    parse_outline_recursive OutlineSpec.nested_objects 3
      ([Nested 7] ++ Leaf (Ret "x") (Raise (Exn OtherException "no destination"))
                  :: [Leaf (Ret "2. DIRECTORS") (Ret 5)])
      = Ret (bookmarks, log) ∧
    parse_outline_recursive OutlineSpec.nested_objects 3
      ([Nested 7] ++ [Leaf (Ret "2. DIRECTORS") (Ret 5)])
      = Ret (bookmarks, log').
Proof.
  apply (unreadable_entry_is_left_out OutlineSpec.nested_objects 2).
  right. by eexists.
Defined.

(** ** Writing pages *)


Lemma seqZ_sorted (k : nat) : ∀ s, StronglySorted Z.le (seqZ s (Z.of_nat k)).
Proof.
  induction k as [|k IH]; intros s.
  - rewrite seqZ_nil by lia. constructor.
  - rewrite seqZ_cons by lia.
    replace (Z.pred (Z.of_nat (S k))) with (Z.of_nat k) by lia.
    constructor; [apply IH|].
    apply Forall_seqZ. intros; lia.
Qed.

Lemma merge_sort_seqZ s len : merge_sort Z.le (seqZ s len) = seqZ s len.
Proof.
  apply (StronglySorted_unique Z.le).
  - apply StronglySorted_merge_sort; apply _.
  - destruct (decide (0 ≤ len)) as [Hlen|Hlen].
    + rewrite <- (Z2Nat.id len Hlen). apply seqZ_sorted.
    + rewrite seqZ_nil by lia. constructor.
  - apply merge_sort_Permutation.
Qed.



(** The pages of a range that lies inside the document are written as they
    are, in order and without loss; the call returns the path of the new
    file when the write works and [None] when it raises. *)
Theorem range_pages_written_in_order (env : Env) (pdf_path : string)
    (reader : PdfReader) (n first count : Z) :
  open_reader env pdf_path = Ret reader → num_pages reader = Ret n →
  0 ≤ first → first + count ≤ n →
  extract_pages env pdf_path (seqZ first count)
  = match write_pdf env pdf_path (temp_path_of env (seqZ first count))
            (seqZ first count) with
    | Ret _ => Some (temp_path_of env (seqZ first count))
    | Raise _ => None
    end.
Proof.
  intros Ho Hn Hfirst Hlast. unfold extract_pages, catch, bind.
  rewrite Ho, Hn, merge_sort_seqZ.
  replace (List.filter (λ p, (0 <=? p) && (p <? n)) (seqZ first count))
    with (seqZ first count).
  { unfold temp_path_of, temp_filename. by destruct (write_pdf env pdf_path _ _). }
  symmetry. apply forallb_filter_id, forallb_forall.
  intros x Hx%list_elem_of_In%elem_of_seqZ.
  apply andb_true_iff. rewrite Z.leb_le, Z.ltb_lt. lia.
Qed.

Lemma range_pages_written_in_order_witness :
  extract_pages sample_env "report.pdf" (seqZ 5 7)
  = Some "outputs/temp_extract_1700000000_7pages.pdf".
Proof.
  rewrite (range_pages_written_in_order sample_env "report.pdf" sample_reader 40 5 7);
    [vm_compute; reflexivity | done | done | lia | lia].
Defined.

(** ** [process_pdf] and its node *)

Lemma extract_pdf_section_returns env pdf_path kw :
  ∃ p, extract_pdf_section env pdf_path kw = Ret p.
Proof. rewrite ExtractFacts.extract_pdf_section_unfold. by eexists. Qed.

Lemma process_pdf_cases (env : Env) (pdf_path : option string) :
  (file_missing env pdf_path ∧
   process_pdf env pdf_path
   = {| success := false; error := Some "PDF file not found"; pdf_chunks := None |}) ∨
  (∃ p directors rating financials,
     pdf_path = Some p ∧ p ≠ "" ∧ path_exists env p = true ∧
     extract_pdf_section env p "DIRECTORS" = Ret directors ∧
     extract_pdf_section env p "RATING" = Ret rating ∧
     extract_pdf_section env p "FINANCIALS" = Ret financials ∧
     process_pdf env pdf_path
     = {| success := true; error := None;
          pdf_chunks := Some (<["financials" := financials]>
                                (<["rating" := rating]>
                                   {["directors" := directors]})) |}).
Proof.
  unfold process_pdf, file_missing.
  destruct pdf_path as [[|c p]|]; [left; split; [right; by left | done]| |by left; split; [left|]].
  cbn [is_empty orb].
  destruct (path_exists env (String c p)) eqn:Ee; cbn [negb].
  - right.
    destruct (extract_pdf_section_returns env (String c p) "DIRECTORS") as [d Hd].
    destruct (extract_pdf_section_returns env (String c p) "RATING") as [r Hr].
    destruct (extract_pdf_section_returns env (String c p) "FINANCIALS") as [f Hf].
    exists (String c p), d, r, f. rewrite Hd, Hr, Hf. by split_and!.
  - left. split; [|done]. right. right. by exists (String c p).
Qed.

(** [process_pdf] has two outcomes.  Without a path, with an empty path or
    with a path that does not exist it reports "PDF file not found" and no
    chunks.  Otherwise it succeeds, whatever the document holds, and its
    chunks are the results of [extract_pdf_section] for DIRECTORS, RATING and
    FINANCIALS under the keys [directors], [rating] and [financials]; the
    "PDF processing error" of its handler never occurs. *)
Theorem process_pdf_outcomes (env : Env) (pdf_path : option string) :
  (file_missing env pdf_path ∧
   process_pdf env pdf_path
   = {| success := false; error := Some "PDF file not found"; pdf_chunks := None |}) ∨
  (∃ p directors rating financials,
     pdf_path = Some p ∧ p ≠ "" ∧ path_exists env p = true ∧
     extract_pdf_section env p "DIRECTORS" = Ret directors ∧
     extract_pdf_section env p "RATING" = Ret rating ∧
     extract_pdf_section env p "FINANCIALS" = Ret financials ∧
     process_pdf env pdf_path
     = {| success := true; error := None;
          pdf_chunks := Some (<["financials" := financials]>
                                (<["rating" := rating]>
                                   {["directors" := directors]})) |}).
Proof. apply process_pdf_cases. Qed.

(** When a document exists but every extraction fails, for instance because
    it cannot be opened, processing still succeeds and each of the three
    chunks is the path of the whole document. *)
Theorem process_pdf_degrades_to_whole_document (env : Env) (p : string) :
  p ≠ "" → path_exists env p = true →
  (∀ kw, extraction_failure env p kw) →
  process_pdf env (Some p)
  = {| success := true; error := None;
       pdf_chunks := Some (<["financials" := p]>
                             (<["rating" := p]> {["directors" := p]})) |}.
Proof.
  intros Hp He Hfail. unfold process_pdf.
  destruct p as [|c p]; [done|]. cbn [is_empty orb]. rewrite He. cbn [negb].
  by rewrite !(ExtractFacts.failure_returns_original _ _ _ (Hfail _)).
Qed.

Lemma process_pdf_degrades_to_whole_document_witness :
  process_pdf {| PDF_PROCESSING_AVAILABLE := false; output_dir := "outputs";
                 open_reader := λ _, Ret sample_reader; path_exists := λ _, true;
                 path_join := λ d f, d +:+ "/" +:+ f; now := 0;
                 write_pdf := λ _ _ _, Ret (); stack_left := 900 |}
    (Some "report.pdf")
  = {| success := true; error := None;
       pdf_chunks := Some (<["financials" := "report.pdf"]>
                             (<["rating" := "report.pdf"]>
                                {["directors" := "report.pdf"]})) |}.
Proof.
  apply process_pdf_degrades_to_whole_document; [done..|].
  intros kw. by apply library_missing.
Defined.

End DocumentFacts.

(* ===================================================================== *)
(** * The PDF step of the graph, the reducers, and the configuration *)
(* ===================================================================== *)

Module GraphFacts.
Import Workflow WorkflowSpec Reducers.


(** ** [merge_dicts] *)

(** [merge_dicts] is associative, also when some argument is [None], and
    merging a dict with itself gives it back. *)
Theorem merge_dicts_assoc_idemp (a b c : option (gmap string string)) :
  merge_dicts (merge_dicts a b) c = merge_dicts a (merge_dicts b c) ∧
  merge_dicts a a = a.
Proof.
  split.
  - destruct a as [a|], b as [b|], c as [c|]; try done.
    cbn [merge_dicts]. f_equal. apply (assoc_L (∪)).
  - destruct a as [a|]; [|done]. cbn [merge_dicts]. f_equal. apply (idemp_L (∪)).
Qed.

Lemma node_status_delta n svc st statuses :
  node_fn n svc st !! "processing_status" = Some (VDict statuses) →
  ∃ s, statuses = {[ node_id n := s ]} ∧ s ≠ "pending".
Proof.
  destruct (NodeFacts.node_id_not_reserved n) as [Hps Herr].
  destruct (NodeFacts.node_fn_outcome n svc st) as [|d Hran].
  - rewrite NodeFacts.skipped_update_lookup by done.
    destruct (decide ("processing_status" = "processing_status")); [|done].
    intros [= <-]. by exists "skipped".
  - destruct (NodeFacts.ran_outcome_trace _ _ Hps Herr Hran)
      as [(s & Hst & Hs & _) _].
    rewrite Hst. intros [= <-]. exists s. split; [done|].
    by destruct Hs as [->|[->| ->]].
Qed.

(** Applying the status of a node to a status map changes the key of that
    node only: on the map written by [_initialize_node] the node leaves
    [pending] and the other six stay as they were. *)
Theorem node_status_touches_own_key (n : node) (svc : Services)
    (st st0 : MarketScanState) (init statuses : gmap string string) :
  _initialize_node st0 !! "processing_status" = Some (VDict init) →
  node_fn n svc st !! "processing_status" = Some (VDict statuses) →
  ∃ merged s,
    merge_dicts (Some init) (Some statuses) = Some merged ∧
    merged !! node_id n = Some s ∧ s ≠ "pending" ∧
    (∀ m, m ≠ n → merged !! node_id m = Some "pending") ∧
    dom merged = dom init.
Proof.
  intros Hinit Hnode.
  assert (init = initial_statuses) as -> by (by injection Hinit).
  destruct (node_status_delta n svc st statuses Hnode) as (s & -> & Hs).
  exists ({[ node_id n := s ]} ∪ initial_statuses), s.
  split_and!; [done| |done| |].
  - apply lookup_union_Some_l, lookup_singleton_eq.
  - intros m Hm. rewrite lookup_union_r by (apply lookup_singleton_ne; destruct n, m; done).
    by destruct m.
  - rewrite dom_union_L, dom_singleton_L.
    assert (node_id n ∈ dom initial_statuses) as Hin.
    { apply elem_of_dom. by destruct n. }
    apply subseteq_union_1_L. by apply singleton_subseteq_l.
Qed.

Lemma node_status_touches_own_key_witness :
  ∃ merged s,
    merge_dicts (Some initial_statuses) (Some {[ "compliance_checks" := "skipped" ]})
      = Some merged ∧
    merged !! "compliance_checks" = Some s ∧ s ≠ "pending" ∧
    (∀ m, m ≠ ComplianceChecks → merged !! node_id m = Some "pending") ∧
    dom merged = dom initial_statuses.
Proof.
  apply (node_status_touches_own_key ComplianceChecks
           (quiet_services compliance_off (Ret None)) overview_only overview_only);
    reflexivity.
Defined.

(** The statuses of two different nodes can be applied in either order. *)
Theorem node_statuses_commute (n m : node) (svc : Services)
    (st st' : MarketScanState) (base sn sm : gmap string string) :
  n ≠ m →
  node_fn n svc st !! "processing_status" = Some (VDict sn) →
  node_fn m svc st' !! "processing_status" = Some (VDict sm) →
  merge_dicts (merge_dicts (Some base) (Some sn)) (Some sm)
  = merge_dicts (merge_dicts (Some base) (Some sm)) (Some sn).
Proof.
  intros Hnm Hn Hm.
  destruct (node_status_delta n svc st sn Hn) as (s & -> & _).
  destruct (node_status_delta m svc st' sm Hm) as (s' & -> & _).
  cbn [merge_dicts]. f_equal.
  rewrite !(assoc_L (∪)). f_equal. apply map_union_comm.
  apply map_disjoint_singleton_l, lookup_singleton_ne.
  destruct n, m; done.
Qed.

Lemma node_statuses_commute_witness :
  merge_dicts (merge_dicts (Some initial_statuses)
                 (Some {[ "compliance_checks" := "skipped" ]}))
    (Some {[ "credit_rating" := "failed" ]})
  = merge_dicts (merge_dicts (Some initial_statuses)
                   (Some {[ "credit_rating" := "failed" ]}))
      (Some {[ "compliance_checks" := "skipped" ]}).
Proof.
  apply (node_statuses_commute ComplianceChecks CreditRating
           (quiet_services compliance_off (Ret None)) overview_only overview_only);
    [done | reflexivity | reflexivity].
Defined.

End GraphFacts.

Module PromptFacts.
Import PromptManager Workflow WorkflowSpec.

(** [set_node_enabled] on an unknown node raises [KeyError] and changes
    nothing.  On a known node the flag is set in memory whether or not the
    save works: afterwards [is_node_enabled] gives the new value for that
    node, every other node is as before, and the call raises exactly what
    the save raised. *)
Theorem set_node_enabled_effect (save : gmap string NodeConfig → res ())
    (nodes : gmap string NodeConfig) (node_id : string) (value : bool) :
  match nodes !! node_id with
  | None =>
      set_node_enabled save (Some nodes) node_id value
      = (Some nodes, Raise (Exn KeyError ("Node '" +:+ node_id +:+ "' not found")))
  | Some _ =>
      ∃ nodes',
        (set_node_enabled save (Some nodes) node_id value).1 = Some nodes' ∧
        is_node_enabled (Some nodes') node_id = Ret value ∧
        (∀ other, other ≠ node_id →
           is_node_enabled (Some nodes') other = is_node_enabled (Some nodes) other) ∧
        (set_node_enabled save (Some nodes) node_id value).2
        = match save nodes' with
          | Ret _ => Ret {| enabled := Some value |}
          | Raise e => Raise e
          end
  end.
Proof.
  unfold set_node_enabled.
  destruct (nodes !! node_id) as [cfg|] eqn:E; [|done].
  exists (<[ node_id := {| enabled := Some value |} ]> nodes).
  split_and!; [done| | |done].
  - unfold is_node_enabled. by rewrite lookup_insert_eq.
  - intros other Hne. unfold is_node_enabled. by rewrite lookup_insert_ne.
Qed.



End PromptFacts.

Module ConfigFacts.
Import Config.
Local Open Scope Z_scope.

(** After [validate_pdf_config] the mode is one of the five valid modes and
    the page limit lies between 10 and 1000; a configuration that already
    satisfies this is left as it is, an invalid mode becomes
    [bookmark_sections], a limit above 1000 becomes 990 and one below 10
    becomes 100; validating a second time changes nothing. *)
Theorem validate_pdf_config_normalises (c : PdfConfig) :
  let v := validate_pdf_config c in
  pdf_processing_mode v ∈ valid_modes ∧
  10 ≤ pdf_max_pages v ≤ 1000 ∧
  pdf_enable_chunking v = pdf_enable_chunking c ∧
  (pdf_processing_mode c ∈ valid_modes → pdf_processing_mode v = pdf_processing_mode c) ∧
  (pdf_processing_mode c ∉ valid_modes → pdf_processing_mode v = "bookmark_sections") ∧
  (10 ≤ pdf_max_pages c ≤ 1000 → pdf_max_pages v = pdf_max_pages c) ∧
  (1000 < pdf_max_pages c → pdf_max_pages v = 990) ∧
  (pdf_max_pages c < 10 → pdf_max_pages v = 100) ∧
  validate_pdf_config v = v.
Proof.
  intros v. subst v. unfold validate_pdf_config. cbn [pdf_processing_mode pdf_max_pages
    pdf_enable_chunking].
  assert (Hmode : "bookmark_sections" ∈ valid_modes).
  { unfold valid_modes. rewrite !elem_of_cons. tauto. }
  destruct (bool_decide (pdf_processing_mode c ∈ valid_modes)) eqn:Em.
  - apply bool_decide_eq_true in Em.
    rewrite (bool_decide_eq_true_2 _ Em).
    destruct (1000 <? pdf_max_pages c) eqn:E1.
    + apply Z.ltb_lt in E1. split_and!; try done; try lia.
    + apply Z.ltb_ge in E1. destruct (pdf_max_pages c <? 10) eqn:E2.
      * apply Z.ltb_lt in E2. split_and!; try done; try lia.
      * apply Z.ltb_ge in E2. split_and!; try done; try lia.
        rewrite (proj2 (Z.ltb_ge _ _) E1), (proj2 (Z.ltb_ge _ _) E2).
        by destruct c.
  - apply bool_decide_eq_false in Em.
    rewrite (bool_decide_eq_true_2 _ Hmode).
    destruct (1000 <? pdf_max_pages c) eqn:E1.
    + apply Z.ltb_lt in E1. split_and!; try done; try lia.
    + apply Z.ltb_ge in E1. destruct (pdf_max_pages c <? 10) eqn:E2.
      * apply Z.ltb_lt in E2. split_and!; try done; try lia.
      * apply Z.ltb_ge in E2. split_and!; try done; try lia.
        by rewrite (proj2 (Z.ltb_ge _ _) E1), (proj2 (Z.ltb_ge _ _) E2).
Qed.

End ConfigFacts.
